(** * Smart restaurant back office: authentication, menu CRUD, analytics

    A shallow embedding of [app.py].  Every route of the application is a
    parameterised SQL statement run through pyodbc against SQL Server,
    wrapped in Flask and Flask-Login plumbing.  The embedding keeps that
    shape:

    - a table is the list of its rows, in the order the server scans them;
    - a [SELECT] is a [filter], a [JOIN] a nested comprehension, an
      [ORDER BY] a sort, a [GROUP BY] an accumulation per key;
    - a view function takes the request and the state of the outside
      world (database, session cookie, pending flash messages) and returns
      a response together with the new state, or raises.

    What the application delegates to its platform (the collation used to
    compare strings, the implicit conversion of string parameters to
    numeric columns, the password hashing of werkzeug, Python's [str] and
    [float]) is taken as an interface with the laws the proofs need.  The
    table declarations are not part of the source: columns are the ones
    the statements name, and constraints follow the data model of the
    specification. *)

From Stdlib Require Import ZArith QArith String Ascii List Sorted Permutation
  SetoidList SetoidPermutation DecimalString DecimalZ Lia.
From stdpp Require Import base decidable option list sorting strings gmap.

Local Open Scope string_scope.
Local Open Scope list_scope.
Local Open Scope Z_scope.

(** ** The platform *)

(** Python's conversions used by the views: [str] on an [int] (Flask-Login
    stores [str(user.id)] in the session), [str] on a [datetime.date] and
    [float] on a [decimal.Decimal].  Rounding to a float never reverses
    the order of two decimals. *)
Class Python := {
  str : Z → string;
  str_date : Z → string;
  pyfloat : Type;
  float : Z → pyfloat;
  float_le : relation pyfloat;
  float_mono : ∀ a b : Z, (a ≤ b)%Z → float_le (float a) (float b)
}.

(** SQL Server: the collation orders strings (a total preorder; two strings
    are equal for [=] and [GROUP BY] when each is below the other), and a
    string parameter bound to a numeric column is converted or rejected.
    The decimal text Python prints for an integer converts back to it.
    Whether the schema declares the foreign key from a menu item to its
    category is left open: the source holds no table declaration. *)
Class SqlServer `{Python} := {
  coll_le : relation string;
  coll_le_dec :: RelDecision coll_le;
  coll_le_total :: Total coll_le;
  coll_le_trans :: Transitive coll_le;
  sql_int : string → option Z;
  sql_decimal : string → option Z;
  sql_int_str : ∀ n, sql_int (str n) = Some n;
  foreign_keys : bool
}.

(** werkzeug.security: [generate_password_hash] draws a random salt, made
    explicit here as the first argument; [check_password_hash pwhash
    password] accepts every hash generated from that password. *)
Class Werkzeug := {
  generate_password_hash : string → string → string;
  check_password_hash : string → string → bool;
  check_generate :
    ∀ salt password,
      check_password_hash (generate_password_hash salt password) password = true
}.

(** Equality of strings under the collation. *)
Definition coll_eq `{SqlServer} (a b : string) : Prop :=
  coll_le a b ∧ coll_le b a.

#[global] Instance coll_eq_dec `{SqlServer} : RelDecision coll_eq.
Proof. intros a b. unfold coll_eq. apply _. Defined.

(** ** Exceptions *)

(** A missing form key raises werkzeug's [BadRequestKeyError] (HTTP 400); a
    statement the server rejects raises a pyodbc error, which no view
    catches (HTTP 500). *)
Inductive exn := BadRequestKeyError (key : string) | DatabaseError.

Inductive result (A : Type) :=
| Ok (a : A)
| Raise (e : exn).
Arguments Ok {A} a.
Arguments Raise {A} e.

#[global] Instance result_ret : MRet result := λ A a, Ok a.

#[global] Instance result_bind : MBind result := λ A B k r,
  match r with
  | Ok a => k a
  | Raise e => Raise e
  end.

(** A conversion the server refuses surfaces as a database error. *)
Definition convert {A} (o : option A) : result A :=
  match o with
  | Some a => Ok a
  | None => Raise DatabaseError
  end.

(** ** The schema *)

(** Modelled from the spec: the table declarations are not part of the
    source.  Tables and columns are the ones the statements of [app.py]
    name, with the attributes of the data model: a user has id, username,
    email, password hash and role; no uniqueness constraint is declared on
    the email (the data model has it assumed and unenforced), and nothing
    but the key columns is maintained by the server. *)
Record UserRow := {
  UserID : Z;
  Username : string;
  Email : string;
  PasswordHash : string;
  Role : string
}.

Record CategoryRow := {
  CategoryID : Z;
  CategoryName : string
}.

(** Prices and amounts are fixed-point decimals, counted in the smallest
    unit of the column's scale.  [Active] is a BIT column. *)
Record MenuItemRow := {
  MenuItemID : Z;
  Name : string;
  ItemCategoryID : Z;
  Price : Z;
  Active : bool
}.

(** A DATETIME as the server stores it: a day number and the time within
    that day; [CAST(... AS DATE)] keeps the day. *)
Record datetime := {
  dt_day : Z;
  dt_time : Z
}.

Record OrderRow := {
  OrderID : Z;
  OrderTime : datetime;
  TotalAmount : Z
}.

Record OrderDetailRow := {
  DetailOrderID : Z;
  DetailMenuItemID : Z;
  Quantity : Z;
  UnitPrice : Z
}.

(** A table is the list of its rows in scan order, oldest first.  The two
    tables the application inserts into never name their key column: the
    server draws it from the table's identity counter. *)
Record database := {
  Users : list UserRow;
  Users_identity : Z;
  Categories : list CategoryRow;
  MenuItems : list MenuItemRow;
  MenuItems_identity : Z;
  Orders : list OrderRow;
  OrderDetails : list OrderDetailRow
}.

Definition set_Users (d : database) (rows : list UserRow) (next : Z) : database :=
  {| Users := rows; Users_identity := next;
     Categories := Categories d;
     MenuItems := MenuItems d; MenuItems_identity := MenuItems_identity d;
     Orders := Orders d; OrderDetails := OrderDetails d |}.

Definition set_MenuItems (d : database) (rows : list MenuItemRow) (next : Z) : database :=
  {| Users := Users d; Users_identity := Users_identity d;
     Categories := Categories d;
     MenuItems := rows; MenuItems_identity := next;
     Orders := Orders d; OrderDetails := OrderDetails d |}.

(** Some category row has the id [c]. *)
Definition has_category (d : database) (c : Z) : Prop :=
  Exists (λ row, CategoryID row = c) (Categories d).

(** Some menu item row has the id [item_id]. *)
Definition has_menu_item (d : database) (item_id : Z) : Prop :=
  Exists (λ row, MenuItemID row = item_id) (MenuItems d).

#[global] Instance has_category_dec d c : Decision (has_category d c).
Proof. unfold has_category. apply _. Defined.

#[global] Instance has_menu_item_dec d item_id : Decision (has_menu_item d item_id).
Proof. unfold has_menu_item. apply _. Defined.

(** ** Cursor and relational operators *)

(** [cur.fetchone()]: the first row of the result set, or [None]. *)
Definition fetchone {A} (rows : list A) : option A := head rows.

(** [FROM l JOIN r ON on]: every pair of rows the condition relates. *)
Definition join {A B} (on : A → B → Prop) `{∀ a b, Decision (on a b)}
    (l : list A) (r : list B) : list (A * B) :=
  a ← l; b ← filter (on a) r; [(a, b)].

(** [SUM(v) ... GROUP BY k]: one row per key, holding the sum over the rows
    whose key equals it; groups appear in order of first occurrence. *)
Fixpoint add_to_group {K} (eqk : K → K → Prop) `{∀ a b, Decision (eqk a b)}
    (k : K) (v : Z) (groups : list (K * Z)) : list (K * Z) :=
  match groups with
  | [] => [(k, v)]
  | (k', s) :: rest =>
      if decide (eqk k' k) then (k', s + v) :: rest
      else (k', s) :: add_to_group eqk k v rest
  end.

Definition group_sum {K} (eqk : K → K → Prop) `{∀ a b, Decision (eqk a b)}
    (rows : list (K * Z)) : list (K * Z) :=
  foldl (λ groups kv, add_to_group eqk kv.1 kv.2 groups) [] rows.

(** The sum a group must hold: the values of the rows with key [k]. *)
Definition sum_where {K} (eqk : K → K → Prop) `{∀ a b, Decision (eqk a b)}
    (k : K) (rows : list (K * Z)) : Z :=
  foldr Z.add 0 ((filter (λ kv, eqk k kv.1) rows).*2).

(** ** Flask: requests, responses, session *)

Inductive method := GET | POST.

(** [request.form] maps a field name to the value submitted for it. *)
Record request := {
  req_method : method;
  form : gmap string string
}.

(** [request.form[key]] *)
Definition form_getitem (f : gmap string string) (key : string) : result string :=
  match f !! key with
  | Some v => Ok v
  | None => Raise (BadRequestKeyError key)
  end.

(** [key in request.form] *)
Definition form_contains (f : gmap string string) (key : string) : bool :=
  bool_decide (is_Some (f !! key)).

(** [request.form.get(key)] *)
Definition form_get (f : gmap string string) (key : string) : option string :=
  f !! key.

(** Truth value of an optional string: [None] and [''] are false. *)
Definition truthy (v : option string) : bool :=
  match v with
  | None => false
  | Some EmptyString => false
  | Some (String _ _) => true
  end.

(** An integer bound to a BIT column: zero is false, the rest true. *)
Definition sql_bit (n : Z) : bool := bool_decide (n ≠ 0).

(** [class User(UserMixin)] *)
Record User := {
  id : Z;
  username : string;
  email : string;
  role : string
}.

Definition User_of_row (row : UserRow) : User :=
  {| id := UserID row; username := Username row; email := Email row; role := Role row |}.

(** The state a request runs against: the database, the user id Flask-Login
    keeps in the signed session cookie, and the flashed messages (message,
    category) waiting for the next page. *)
Record world := {
  db : database;
  session_user_id : option string;
  flashes : list (string * string)
}.

Definition set_db (w : world) (d : database) : world :=
  {| db := d; session_user_id := session_user_id w; flashes := flashes w |}.

Definition set_session (w : world) (s : option string) : world :=
  {| db := db w; session_user_id := s; flashes := flashes w |}.

Definition flash (message category : string) (w : world) : world :=
  {| db := db w; session_user_id := session_user_id w;
     flashes := flashes w ++ [(message, category)] |}.

(** A row of the menu listing: the item with its category's name. *)
Record MenuListRow := {
  row_MenuItemID : Z;
  row_Name : string;
  row_CategoryName : string;
  row_Price : Z;
  row_Active : bool
}.

Definition menu_list_row (m : MenuItemRow) (c : CategoryRow) : MenuListRow :=
  {| row_MenuItemID := MenuItemID m; row_Name := Name m;
     row_CategoryName := CategoryName c;
     row_Price := Price m; row_Active := Active m |}.

(** The conditions of the two joins, and the orders of the rows. *)
Definition in_category (m : MenuItemRow) (c : CategoryRow) : Prop :=
  ItemCategoryID m = CategoryID c.

Definition of_item (od : OrderDetailRow) (mi : MenuItemRow) : Prop :=
  DetailMenuItemID od = MenuItemID mi.

Definition by_date : relation (Z * Z) := λ a b, a.1 ≤ b.1.

Definition by_revenue_desc {K} : relation (K * Z) := λ a b, b.2 ≤ a.2.

Definition by_name `{SqlServer} : relation MenuListRow :=
  λ a b, coll_le (row_Name a) (row_Name b).

#[global] Instance in_category_dec m c : Decision (in_category m c).
Proof. unfold in_category. apply _. Defined.

#[global] Instance of_item_dec od mi : Decision (of_item od mi).
Proof. unfold of_item. apply _. Defined.

#[global] Instance by_date_dec : RelDecision by_date.
Proof. intros a b. unfold by_date. apply _. Defined.

#[global] Instance by_revenue_desc_dec {K} : RelDecision (@by_revenue_desc K).
Proof. intros a b. unfold by_revenue_desc. apply _. Defined.

#[global] Instance by_name_dec `{SqlServer} : RelDecision by_name.
Proof. intros a b. unfold by_name. apply _. Defined.

(** ** The application *)

Section app.
Context `{SqlServer} `{Werkzeug}.

(** What [render_template] is given. *)
Inductive template :=
| base_html
| register_html
| login_html
| menu_list_html (items : list MenuListRow)
| menu_form_html (categories : list CategoryRow) (item : option MenuItemRow)
| analytics_html (dates : list string) (revenues : list pyfloat)
    (item_names : list string) (item_revenues : list pyfloat).

Inductive response :=
| Render (t : template)
| Redirect (endpoint : string)
| ErrorPage (status : Z).

Definition view := request → world → result (response * world).

(** *** Statements *)

(** [SELECT UserID, Username, Email, Role FROM Users WHERE UserID = ?]
    with the session's string bound to the parameter. *)
Definition select_user_by_id (d : database) (user_id : string) : result (list UserRow) :=
  n ← convert (sql_int user_id);
  Ok (filter (λ r, UserID r = n) (Users d)).

(** [SELECT UserID, Username, Email, PasswordHash, Role FROM Users
    WHERE Email = ?] *)
Definition select_user_by_email (d : database) (e : string) : list UserRow :=
  filter (λ r, coll_eq (Email r) e) (Users d).

(** [INSERT INTO Users (Username, Email, PasswordHash, Role)
    VALUES (?, ?, ?, ?)] *)
Definition insert_user (d : database) (u e h r : string) : database :=
  set_Users d
    (Users d ++ [{| UserID := Users_identity d; Username := u; Email := e;
                    PasswordHash := h; Role := r |}])
    (Users_identity d + 1).

(** [SELECT m.MenuItemID, m.Name, c.Name AS CategoryName, m.Price, m.Active
    FROM MenuItems m JOIN Categories c ON m.CategoryID = c.CategoryID
    ORDER BY m.Name] *)
Definition select_menu (d : database) : list MenuListRow :=
  merge_sort by_name
    ((λ mc, menu_list_row mc.1 mc.2) <$>
       join in_category (MenuItems d) (Categories d)).

(** [SELECT CategoryID, Name FROM Categories] *)
Definition select_categories (d : database) : list CategoryRow := Categories d.

(** Modelled from the spec: the data model has a menu item belong to one
    category, its category id referencing an existing Category, and the
    application validates nothing before it writes.  A server whose schema
    declares that foreign key rejects a row written with a category id no
    category row has; a server without it accepts every row. *)
Definition check_category (d : database) (c : Z) : result () :=
  if foreign_keys && bool_decide (¬ has_category d c)
  then Raise DatabaseError
  else Ok ().

(** [INSERT INTO MenuItems (Name, CategoryID, Price, Active)
    VALUES (?, ?, ?, ?)]: category and price arrive as the form's strings. *)
Definition insert_menu_item (d : database) (name category_id price : string)
    (active : Z) : result database :=
  c ← convert (sql_int category_id);
  p ← convert (sql_decimal price);
  _ ← check_category d c;
  Ok (set_MenuItems d
        (MenuItems d ++ [{| MenuItemID := MenuItems_identity d; Name := name;
                            ItemCategoryID := c; Price := p;
                            Active := sql_bit active |}])
        (MenuItems_identity d + 1)).

(** [SELECT * FROM MenuItems WHERE MenuItemID = ?] *)
Definition select_menu_item (d : database) (item_id : Z) : list MenuItemRow :=
  filter (λ m, MenuItemID m = item_id) (MenuItems d).

(** [UPDATE MenuItems SET Name = ?, CategoryID = ?, Price = ?, Active = ?
    WHERE MenuItemID = ?] *)
Definition update_menu_item (d : database) (name category_id price : string)
    (active : Z) (item_id : Z) : result database :=
  c ← convert (sql_int category_id);
  p ← convert (sql_decimal price);
  _ ← (if bool_decide (has_menu_item d item_id) then check_category d c else Ok ());
  Ok (set_MenuItems d
        ((λ m, if decide (MenuItemID m = item_id)
               then {| MenuItemID := MenuItemID m; Name := name;
                       ItemCategoryID := c; Price := p;
                       Active := sql_bit active |}
               else m) <$> MenuItems d)
        (MenuItems_identity d)).

(** [DELETE FROM MenuItems WHERE MenuItemID = ?] *)
Definition delete_menu_item (d : database) (item_id : Z) : database :=
  set_MenuItems d (filter (λ m, MenuItemID m ≠ item_id) (MenuItems d))
    (MenuItems_identity d).

(** [SELECT CAST(OrderTime AS DATE) AS OrderDate, SUM(TotalAmount) AS
    TotalRevenue FROM Orders GROUP BY CAST(OrderTime AS DATE)
    ORDER BY OrderDate] *)
Definition order_dates (d : database) : list (Z * Z) :=
  (λ o, (dt_day (OrderTime o), TotalAmount o)) <$> Orders d.

Definition select_daily_revenue (d : database) : list (Z * Z) :=
  merge_sort by_date (group_sum (=) (order_dates d)).

(** [SELECT TOP 5 mi.Name, SUM(od.Quantity * od.UnitPrice) AS TotalRevenue
    FROM OrderDetails od JOIN MenuItems mi ON od.MenuItemID = mi.MenuItemID
    GROUP BY mi.Name ORDER BY TotalRevenue DESC] *)
Definition detail_lines (d : database) : list (string * Z) :=
  (λ p, (Name p.2, Quantity p.1 * UnitPrice p.1)) <$>
    join of_item (OrderDetails d) (MenuItems d).

Definition select_top_items (d : database) : list (string * Z) :=
  take 5 (merge_sort by_revenue_desc (group_sum coll_eq (detail_lines d))).

(** *** Flask-Login *)

Definition load_user (d : database) (user_id : string) : result (option User) :=
  rows ← select_user_by_id d user_id;
  match fetchone rows with
  | Some row => Ok (Some (User_of_row row))
  | None => Ok None
  end.

(** [login_user(user)] stores [user.get_id()], the id printed as text. *)
Definition login_user (user : User) (w : world) : world :=
  set_session w (Some (str (id user))).

Definition logout_user (w : world) : world := set_session w None.

(** [current_user]: the loader's answer for the id in the session. *)
Definition current_user (w : world) : result (option User) :=
  match session_user_id w with
  | Some user_id => load_user (db w) user_id
  | None => Ok None
  end.

(** [@login_required], with [login_manager.login_view = "login"]: without
    a current user the view is not run. *)
Definition login_required (v : view) : view := λ req w,
  u ← current_user w;
  match u with
  | Some _ => v req w
  | None =>
      Ok (Redirect "login", flash "Please log in to access this page." "message" w)
  end.

(** *** Views *)

Definition index : view := λ req w, Ok (Render base_html, w).

Definition register (salt : string) : view := λ req w,
  match req_method req with
  | POST =>
      username ← form_getitem (form req) "username";
      email ← form_getitem (form req) "email";
      password ← form_getitem (form req) "password";
      let role := "Customer" in
      let password_hash := generate_password_hash salt password in
      let d := insert_user (db w) username email password_hash role in
      Ok (Redirect "login",
          flash "Registration successful! Please log in." "success" (set_db w d))
  | GET => Ok (Render register_html, w)
  end.

Definition login : view := λ req w,
  match req_method req with
  | POST =>
      email ← form_getitem (form req) "email";
      password ← form_getitem (form req) "password";
      let row := fetchone (select_user_by_email (db w) email) in
      let rejected := Ok (Render login_html, flash "Invalid email or password" "danger" w) in
      match row with
      | Some row =>
          if check_password_hash (PasswordHash row) password then
            let user := User_of_row row in
            Ok (Redirect "index",
                flash "Logged in successfully!" "success" (login_user user w))
          else rejected
      | None => rejected
      end
  | GET => Ok (Render login_html, w)
  end.

Definition logout : view := λ req w,
  Ok (Redirect "login", flash "You have been logged out." "info" (logout_user w)).

Definition menu_list : view := λ req w,
  let items := select_menu (db w) in
  Ok (Render (menu_list_html items), w).

Definition menu_create : view := λ req w,
  let categories := select_categories (db w) in
  match req_method req with
  | POST =>
      name ← form_getitem (form req) "name";
      category_id ← form_getitem (form req) "category_id";
      price ← form_getitem (form req) "price";
      let active := if form_contains (form req) "active" then 1 else 0 in
      d ← insert_menu_item (db w) name category_id price active;
      Ok (Redirect "menu_list",
          flash "Menu item created successfully!" "success" (set_db w d))
  | GET => Ok (Render (menu_form_html categories None), w)
  end.

Definition analytics : view := λ req w,
  let revenue_rows := select_daily_revenue (db w) in
  let dates := (λ r, str_date r.1) <$> revenue_rows in
  let revenues := (λ r, float r.2) <$> revenue_rows in
  let top_rows := select_top_items (db w) in
  let item_names := (λ r, r.1) <$> top_rows in
  let item_revenues := (λ r, float r.2) <$> top_rows in
  Ok (Render (analytics_html dates revenues item_names item_revenues), w).

Definition menu_edit (item_id : Z) : view := λ req w,
  let item := fetchone (select_menu_item (db w) item_id) in
  let categories := select_categories (db w) in
  match req_method req with
  | POST =>
      name ← form_getitem (form req) "name";
      category_id ← form_getitem (form req) "category_id";
      price ← form_getitem (form req) "price";
      let active := if truthy (form_get (form req) "active") then 1 else 0 in
      d ← update_menu_item (db w) name category_id price active item_id;
      Ok (Redirect "menu_list",
          flash "Menu item updated successfully!" "success" (set_db w d))
  | GET => Ok (Render (menu_form_html categories item), w)
  end.

Definition menu_delete (item_id : Z) : view := λ req w,
  let d := delete_menu_item (db w) item_id in
  Ok (Redirect "menu_list", flash "Menu item deleted." "info" (set_db w d)).

(** *** Routing *)

Inductive route :=
| route_index
| route_register (salt : string)
| route_login
| route_logout
| route_menu
| route_menu_create
| route_analytics
| route_menu_edit (item_id : Z)
| route_menu_delete (item_id : Z).

Definition dispatch (r : route) : view :=
  match r with
  | route_index => login_required index
  | route_register salt => register salt
  | route_login => login
  | route_logout => login_required logout
  | route_menu => login_required menu_list
  | route_menu_create => login_required menu_create
  | route_analytics => login_required analytics
  | route_menu_edit item_id => login_required (menu_edit item_id)
  | route_menu_delete item_id => login_required (menu_delete item_id)
  end.

(** An exception no view catches becomes the framework's error page; the
    statements of the failed request were not committed. *)
Definition app (r : route) (req : request) (w : world) : response * world :=
  match dispatch r req w with
  | Ok out => out
  | Raise (BadRequestKeyError _) => (ErrorPage 400, w)
  | Raise DatabaseError => (ErrorPage 500, w)
  end.

(** *** Notions the properties are stated with *)

(** Modelled from the spec: the schema is not part of the source; the data
    model states that a menu item belongs to one category and that its
    category id must reference an existing Category.  Category ids are a
    key of Categories, and every menu item has a category row with its
    category id. *)
Definition referential_integrity (d : database) : Prop :=
  NoDup (CategoryID <$> Categories d)
  ∧ ∀ m, m ∈ MenuItems d → has_category d (ItemCategoryID m).

(** A view keeps referential integrity when every response it returns
    leaves a database that has it, provided the database had it before. *)
Definition keeps_integrity (v : view) : Prop :=
  ∀ req w resp w',
    referential_integrity (db w) → v req w = Ok (resp, w') →
    referential_integrity (db w').

(** The revenue of a day: the total amounts of the orders placed on it. *)
Definition day_revenue (d : database) (day : Z) : Z :=
  foldr Z.add 0 (TotalAmount <$> filter (λ o, day = dt_day (OrderTime o)) (Orders d)).

(** The revenue of an item name: quantity times unit price over the
    order details joined to a menu item of that name. *)
Definition item_revenue (d : database) (name : string) : Z :=
  foldr Z.add 0
    ((λ p, Quantity p.1 * UnitPrice p.1) <$>
       filter (λ p, coll_eq name (Name p.2))
         (join of_item (OrderDetails d) (MenuItems d))).

Definition order_days (d : database) : list Z :=
  (λ o, dt_day (OrderTime o)) <$> Orders d.

(** The routes decorated with [@login_required]: all but register and
    login. *)
Definition protected (r : route) : bool :=
  match r with
  | route_register _ | route_login => false
  | _ => true
  end.


(** The fields a view reads with [request.form[...]] on POST. *)
Definition required_fields (r : route) : list string :=
  match r with
  | route_register _ => ["username"; "email"; "password"]
  | route_login => ["email"; "password"]
  | route_menu_create | route_menu_edit _ => ["name"; "category_id"; "price"]
  | _ => []
  end.

(** The session resolves to a user. *)
Definition authenticated (w : world) : Prop :=
  ∃ u, current_user w = Ok (Some u).

(** The key columns are keys, and the identity counters lie above every
    key handed out. *)
Definition identity_keys (d : database) : Prop :=
  NoDup (UserID <$> Users d)
  ∧ (∀ row, row ∈ Users d → UserID row < Users_identity d)
  ∧ NoDup (MenuItemID <$> MenuItems d)
  ∧ (∀ row, row ∈ MenuItems d → MenuItemID row < MenuItems_identity d).

(** The category row the listing shows an item with, when there is one. *)
Definition category_of (d : database) (m : MenuItemRow) : option CategoryRow :=
  fetchone (filter (in_category m) (Categories d)).

End app.

(** ** Sample requests and data *)

Definition post (fields : list (string * string)) : request :=
  {| req_method := POST; form := list_to_map fields |}.

Definition get : request := {| req_method := GET; form := ∅ |}.

Definition empty_database : database :=
  {| Users := []; Users_identity := 1; Categories := [];
     MenuItems := []; MenuItems_identity := 1;
     Orders := []; OrderDetails := [] |}.

Definition visitor (d : database) : world :=
  {| db := d; session_user_id := None; flashes := [] |}.

Definition bistro : database := {|
  Users :=
    [ {| UserID := 1; Username := "ada"; Email := "ada@example.com";
         PasswordHash := "s3cret"; Role := "Customer" |} ];
  Users_identity := 2;
  Categories :=
    [ {| CategoryID := 1; CategoryName := "Mains" |};
      {| CategoryID := 2; CategoryName := "Drinks" |} ];
  MenuItems :=
    [ {| MenuItemID := 1; Name := "Pasta"; ItemCategoryID := 1;
         Price := 1250; Active := true |};
      {| MenuItemID := 2; Name := "espresso"; ItemCategoryID := 2;
         Price := 300; Active := true |};
      {| MenuItemID := 3; Name := "Burger"; ItemCategoryID := 1;
         Price := 999; Active := true |} ];
  MenuItems_identity := 4;
  Orders :=
    [ {| OrderID := 1; OrderTime := {| dt_day := 19737; dt_time := 43200 |};
         TotalAmount := 2249 |};
      {| OrderID := 2; OrderTime := {| dt_day := 19736; dt_time := 70000 |};
         TotalAmount := 600 |};
      {| OrderID := 3; OrderTime := {| dt_day := 19737; dt_time := 72000 |};
         TotalAmount := 300 |} ];
  OrderDetails :=
    [ {| DetailOrderID := 1; DetailMenuItemID := 1; Quantity := 1; UnitPrice := 1250 |};
      {| DetailOrderID := 1; DetailMenuItemID := 3; Quantity := 1; UnitPrice := 999 |};
      {| DetailOrderID := 2; DetailMenuItemID := 2; Quantity := 2; UnitPrice := 300 |};
      {| DetailOrderID := 3; DetailMenuItemID := 2; Quantity := 1; UnitPrice := 300 |} ]
|}.

(** The sample database with one more item, in a category no row has. *)
Definition bistro_with_orphan : database :=
  set_MenuItems bistro
    (MenuItems bistro
     ++ [{| MenuItemID := 4; Name := "Special"; ItemCategoryID := 9;
            Price := 1500; Active := true |}])
    5.

Definition signed_in `{Python} (uid : Z) (d : database) : world :=
  {| db := d; session_user_id := Some (str uid); flashes := [] |}.

(** ** Functions of a concrete platform

    Decimal text of integers and ISO text of dates as Python prints them,
    conversion of decimal text with up to two places to hundredths, and
    the lexicographic order of lower-cased strings as a case-insensitive
    collation. *)

Definition str_Z (n : Z) : string := NilEmpty.string_of_int (Z.to_int n).

Definition parse_Z (s : string) : option Z :=
  Z.of_int <$> NilEmpty.int_of_string s.

Definition pad (width : nat) (n : Z) : string :=
  let digits := str_Z n in
  string_of_list_ascii (repeat "0"%char (width - String.length digits)) ++ digits.

(** [str(date)] for a date given as days since 1970-01-01. *)
Definition isoformat (days : Z) : string :=
  let z := days + 719468 in
  let era := z / 146097 in
  let doe := z - era * 146097 in
  let yoe := (doe - doe / 1460 + doe / 36524 - doe / 146096) / 365 in
  let doy := doe - (365 * yoe + yoe / 4 - yoe / 100) in
  let mp := (5 * doy + 2) / 153 in
  let d := doy - (153 * mp + 2) / 5 + 1 in
  let m := if mp <? 10 then mp + 3 else mp - 9 in
  let y := yoe + era * 400 + (if m <=? 2 then 1 else 0) in
  pad 4 y ++ "-" ++ pad 2 m ++ "-" ++ pad 2 d.

Fixpoint split_point (s : string) : string * option string :=
  match s with
  | EmptyString => (EmptyString, None)
  | String c rest =>
      if Ascii.eqb c "." then (EmptyString, Some rest)
      else let '(whole, frac) := split_point rest in (String c whole, frac)
  end.

Definition parse_nat (s : string) : option Z :=
  Z.of_uint <$> NilEmpty.uint_of_string s.

(** Decimal text to hundredths. *)
Definition parse_decimal (s : string) : option Z :=
  let '(whole, frac) := split_point s in
  w ← parse_nat whole;
  match frac with
  | None => Some (100 * w)
  | Some f =>
      match String.length f with
      | 1%nat => d ← parse_nat f; Some (100 * w + 10 * d)
      | 2%nat => d ← parse_nat f; Some (100 * w + d)
      | _ => None
      end
  end.

Definition lower_ascii (c : ascii) : ascii :=
  let n := N_of_ascii c in
  if ((65 <=? n) && (n <=? 90))%N then ascii_of_N (n + 32) else c.

Fixpoint lower (s : string) : string :=
  match s with
  | EmptyString => EmptyString
  | String c s => String (lower_ascii c) (lower s)
  end.

Definition ci_le : relation string := λ a b, String.leb (lower a) (lower b) = true.

(** * Properties of the relational operators *)

Section relational.
Context {K : Type} (eqk : relation K) `{!Equivalence eqk} `{!RelDecision eqk}.
Implicit Types (k : K) (v s : Z) (rows groups : list (K * Z)).

Lemma sum_where_cons k k' v rows :
  sum_where eqk k ((k', v) :: rows)
  = (if decide (eqk k k') then v else 0) + sum_where eqk k rows.
Proof.
  unfold sum_where. rewrite filter_cons. simpl.
  destruct (decide (eqk k k')); simpl; [reflexivity|lia].
Qed.

Lemma sum_where_absent k rows :
  ¬ InA eqk k rows.*1 → sum_where eqk k rows = 0.
Proof.
  induction rows as [|[k' v] rows IH]; intros Hk; [reflexivity|].
  rewrite sum_where_cons. simpl in Hk.
  destruct (decide (eqk k k')) as [Heq|_].
  - destruct Hk. by left.
  - rewrite IH; [lia|]. intros Hin. apply Hk. by right.
Qed.

(** Adding a row to the groups adds its value to the total of its key
    and leaves the total of every other key alone. *)
Lemma sum_where_add_to_group k k' v groups :
  sum_where eqk k (add_to_group eqk k' v groups)
  = sum_where eqk k groups + (if decide (eqk k k') then v else 0).
Proof.
  induction groups as [|[k0 s0] groups IH]; simpl.
  - rewrite sum_where_cons. unfold sum_where. simpl. lia.
  - destruct (decide (eqk k0 k')) as [H0|H0].
    + rewrite !sum_where_cons.
      destruct (decide (eqk k k0)) as [Hk|Hk], (decide (eqk k k')) as [Hk'|Hk'];
        try lia.
      * destruct Hk'. by transitivity k0.
      * destruct Hk. transitivity k'; [done|by symmetry].
    + rewrite !sum_where_cons, IH. lia.
Qed.

Lemma sum_where_foldl k rows groups :
  sum_where eqk k (foldl (λ groups kv, add_to_group eqk kv.1 kv.2 groups) groups rows)
  = sum_where eqk k groups + sum_where eqk k rows.
Proof.
  revert groups. induction rows as [|[k' v] rows IH]; intros groups; simpl.
  - unfold sum_where at 3. simpl. lia.
  - rewrite IH, sum_where_add_to_group, sum_where_cons. lia.
Qed.

Lemma sum_where_group_sum k rows :
  sum_where eqk k (group_sum eqk rows) = sum_where eqk k rows.
Proof. unfold group_sum. by rewrite sum_where_foldl. Qed.

(** The keys after adding a row: unchanged when the key has a group, one
    more at the end otherwise. *)
Lemma add_to_group_keys k v groups :
  (InA eqk k groups.*1 ∧ (add_to_group eqk k v groups).*1 = groups.*1)
  ∨ (¬ InA eqk k groups.*1 ∧ (add_to_group eqk k v groups).*1 = groups.*1 ++ [k]).
Proof.
  induction groups as [|[k0 s0] groups IH]; simpl.
  - right. split; [by inversion 1|done].
  - destruct (decide (eqk k0 k)) as [H0|H0]; simpl.
    + left. split; [|done]. left. by symmetry.
    + destruct IH as [[Hin Heq]|[Hin Heq]].
      * left. split; [by right|]. f_equal. exact Heq.
      * right. split; [|f_equal; exact Heq].
        inversion 1; subst; [destruct H0; by symmetry|done].
Qed.

Lemma add_to_group_NoDupA k v groups :
  NoDupA eqk groups.*1 → NoDupA eqk (add_to_group eqk k v groups).*1.
Proof.
  intros Hnd. destruct (add_to_group_keys k v groups) as [[_ ->]|[Hn ->]]; [done|].
  apply NoDupA_app; [apply _|done|repeat constructor; by inversion 1|].
  intros x Hx Hk. inversion Hk as [?? Hxk|?? Hnil]; subst; [|inversion Hnil].
  apply Hn. eapply InA_eqA; [apply _|exact Hxk|exact Hx].
Qed.

Lemma foldl_add_to_group_NoDupA rows groups :
  NoDupA eqk groups.*1 →
  NoDupA eqk (foldl (λ groups kv, add_to_group eqk kv.1 kv.2 groups) groups rows).*1.
Proof.
  revert groups. induction rows as [|[k v] rows IH]; intros groups Hnd; [done|].
  simpl. by apply IH, add_to_group_NoDupA.
Qed.

(** No two groups have the same key. *)
Lemma group_sum_NoDupA rows : NoDupA eqk (group_sum eqk rows).*1.
Proof. apply foldl_add_to_group_NoDupA. constructor. Qed.

(** Adding a row keeps the keys already there, and what is there
    afterwards was there before or is the row's key. *)
Lemma add_to_group_keys_elem k v groups k' :
  k' ∈ (add_to_group eqk k v groups).*1 → k' ∈ groups.*1 ∨ k' = k.
Proof.
  destruct (add_to_group_keys k v groups) as [[_ ->]|[_ ->]]; [by left|].
  rewrite elem_of_app, list_elem_of_singleton. tauto.
Qed.

Lemma foldl_add_to_group_keys_elem rows groups k :
  k ∈ (foldl (λ groups kv, add_to_group eqk kv.1 kv.2 groups) groups rows).*1 →
  k ∈ groups.*1 ∨ k ∈ rows.*1.
Proof.
  revert groups. induction rows as [|[k' v'] rows IH]; intros groups; simpl.
  - by left.
  - intros Hin. apply IH in Hin as [Hin|Hin].
    + apply add_to_group_keys_elem in Hin as [Hin| ->]; [by left|].
      right. by left.
    + right. by right.
Qed.

(** The key a group shows is the key of one of the rows. *)
Lemma group_sum_keys_elem rows k :
  k ∈ (group_sum eqk rows).*1 → k ∈ rows.*1.
Proof.
  intros Hin. apply foldl_add_to_group_keys_elem in Hin as [Hin|Hin]; [|done].
  by apply elem_of_nil in Hin.
Qed.

(** Every key of the rows has its group. *)
Lemma group_sum_complete rows k :
  InA eqk k rows.*1 → InA eqk k (group_sum eqk rows).*1.
Proof.
  intros Hin. induction rows as [|[k' v'] rows IH] using rev_ind; [inversion Hin|].
  unfold group_sum in *. rewrite foldl_app. simpl.
  rewrite fmap_app in Hin. simpl in Hin.
  destruct (add_to_group_keys k' v' (foldl (λ groups kv,
    add_to_group eqk kv.1 kv.2 groups) [] rows)) as [[Hy ->]|[Hy ->]];
    apply InA_app_iff in Hin as [Hin|Hin].
  - by apply IH.
  - inversion Hin as [?? Hkk|?? Hr]; subst; [|inversion Hr].
    eapply InA_eqA; [apply _| |exact Hy]. by symmetry.
  - apply InA_app_iff. left. by apply IH.
  - apply InA_app_iff. by right.
Qed.

Lemma sum_where_unique k s groups :
  NoDupA eqk groups.*1 → (k, s) ∈ groups → sum_where eqk k groups = s.
Proof.
  induction groups as [|[k0 s0] groups IH]; intros Hnd Hin.
  - by apply elem_of_nil in Hin.
  - simpl in Hnd. inversion Hnd as [|?? Hn Hnd']; subst.
    rewrite sum_where_cons. apply elem_of_cons in Hin as [Heq|Hin].
    + simplify_eq. rewrite decide_True by reflexivity.
      rewrite sum_where_absent; [lia|done].
    + rewrite decide_False, IH; [lia|done|done|].
      intros Hk. apply Hn. eapply InA_eqA; [apply _|exact Hk|].
      apply InA_alt. exists k. split; [reflexivity|].
      apply list_elem_of_In, list_elem_of_fmap. by exists (k, s).
Qed.

(** Each group holds the sum of the rows with its key. *)
Lemma group_sum_sum k s rows :
  (k, s) ∈ group_sum eqk rows → s = sum_where eqk k rows.
Proof.
  intros Hin. rewrite <- sum_where_group_sum.
  symmetry. apply sum_where_unique; [apply group_sum_NoDupA|done].
Qed.

End relational.

Lemma sum_where_proper {K} (eqk : relation K) `{!Equivalence eqk} `{!RelDecision eqk}
    (k k' : K) (rows : list (K * Z)) :
  eqk k k' → sum_where eqk k rows = sum_where eqk k' rows.
Proof.
  intros Hk. induction rows as [|[k0 v] rows IH]; [reflexivity|].
  rewrite !sum_where_cons, IH.
  destruct (decide (eqk k k0)) as [H1|H1], (decide (eqk k' k0)) as [H2|H2]; try done.
  - destruct H2. transitivity k; [by symmetry|done].
  - destruct H1. by transitivity k'.
Qed.

(** The sum of a group, read off the rows the keys and values come from. *)
Lemma sum_where_fmap {A K} (eqk : relation K) `{!RelDecision eqk}
    (key : A → K) (val : A → Z) (k : K) (l : list A) :
  sum_where eqk k ((λ a, (key a, val a)) <$> l)
  = foldr Z.add 0 (val <$> filter (λ a, eqk k (key a)) l).
Proof.
  induction l as [|a l IH]; [reflexivity|].
  rewrite fmap_cons, sum_where_cons, filter_cons, IH.
  destruct (decide (eqk k (key a))); simpl; [reflexivity|lia].
Qed.

Lemma InA_eq_elem_of {A} (x : A) (l : list A) : InA (=) x l ↔ x ∈ l.
Proof.
  rewrite InA_alt, list_elem_of_In. split; [by intros (? & -> & ?)|by exists x].
Qed.

Lemma NoDupA_eq_NoDup {A} (l : list A) : NoDupA (=) l ↔ NoDup l.
Proof.
  induction l as [|x l IH].
  - split; constructor.
  - rewrite NoDup_cons, <- IH, <- InA_eq_elem_of.
    split; [by inversion 1|intros []; by constructor].
Qed.

(** ** Filters *)

Lemma filter_all {A} (P : A → Prop) `{∀ x, Decision (P x)} (l : list A) :
  (∀ x, x ∈ l → P x) → filter P l = l.
Proof.
  induction l as [|x l IH]; intros Hl; [done|].
  rewrite filter_cons_True by (apply Hl; by left).
  f_equal. apply IH. intros y Hy. apply Hl. by right.
Qed.

Lemma filter_none {A} (P : A → Prop) `{∀ x, Decision (P x)} (l : list A) :
  (∀ x, x ∈ l → ¬ P x) → filter P l = [].
Proof.
  induction l as [|x l IH]; intros Hl; [done|].
  rewrite filter_cons_False by (apply Hl; by left).
  apply IH. intros y Hy. apply Hl. by right.
Qed.

(** Under a key, the rows with a given key value are one row when there
    is any. *)
Lemma filter_key_unique {A} (key : A → Z) (k : Z) (l : list A) :
  NoDup (key <$> l) → Exists (λ x, key x = k) l →
  ∃ x, filter (λ y, k = key y) l = [x].
Proof.
  induction l as [|y l IH]; intros Hnd Hex; [by inversion Hex|].
  rewrite fmap_cons in Hnd. apply NoDup_cons in Hnd as [Hy Hnd].
  destruct (decide (k = key y)) as [->|Hne].
  - exists y. rewrite filter_cons_True by done. f_equal.
    apply filter_none. intros z Hz Heq. apply Hy. rewrite Heq.
    by apply list_elem_of_fmap_2.
  - rewrite filter_cons_False by done. apply IH; [done|].
    inversion Hex; subst; [done|done].
Qed.

(** ** Joins *)

Lemma elem_of_join {A B} (on : A → B → Prop) `{∀ a b, Decision (on a b)}
    (l : list A) (r : list B) (a : A) (b : B) :
  (a, b) ∈ join on l r ↔ a ∈ l ∧ b ∈ r ∧ on a b.
Proof.
  unfold join. rewrite list_elem_of_bind. split.
  - intros (a' & Hb & Ha). apply list_elem_of_bind in Hb as (b' & Hs & Hb).
    apply list_elem_of_singleton in Hs. simplify_eq.
    apply list_elem_of_filter in Hb. tauto.
  - intros (Ha & Hb & Hon). exists a. split; [|done].
    apply list_elem_of_bind. exists b. split; [by apply list_elem_of_singleton|].
    by apply list_elem_of_filter.
Qed.

(** When every left row has exactly one partner, the join pairs each left
    row, in order, with that partner. *)
Lemma join_functional {A B} (on : A → B → Prop) `{∀ a b, Decision (on a b)}
    (l : list A) (r : list B) :
  (∀ a, a ∈ l → ∃ b, filter (on a) r = [b]) →
  ∃ bs, Forall2 on l bs ∧ Forall (λ b, b ∈ r) bs ∧ join on l r = zip l bs.
Proof.
  induction l as [|a l IH]; intros Hone.
  - exists []. by repeat constructor.
  - destruct IH as (bs & Hon & Hin & Heq).
    { intros a' Ha'. apply Hone. by right. }
    destruct (Hone a) as [b Hb]; [by left|].
    assert (b ∈ filter (on a) r) as Hbr by (rewrite Hb; by left).
    apply list_elem_of_filter in Hbr as [Hab Hbr].
    exists (b :: bs). split_and!; [by constructor|by constructor|].
    unfold join in *. rewrite bind_cons, Heq. simpl. by rewrite Hb.
Qed.

(** ** Sorted prefixes *)

Lemma StronglySorted_take {A} (R : relation A) (n : nat) (l : list A) :
  StronglySorted R l → StronglySorted R (take n l).
Proof.
  intros Hs. rewrite <- (take_drop n l) in Hs.
  by apply StronglySorted_app_1_l in Hs.
Qed.

Lemma StronglySorted_take_drop {A} (R : relation A) (n : nat) (l : list A) x y :
  StronglySorted R l → x ∈ take n l → y ∈ drop n l → R x y.
Proof.
  intros Hs Hx Hy. rewrite <- (take_drop n l) in Hs.
  by eapply StronglySorted_app_1_elem_of.
Qed.

(** ** Distinct keys under sorting and truncation *)

Lemma NoDupA_take {A} (eqA : relation A) `{!Equivalence eqA} (n : nat) (l : list A) :
  NoDupA eqA l → NoDupA eqA (take n l).
Proof.
  revert n. induction l as [|x l IH]; intros [|n] Hnd; simpl; try constructor.
  - inversion Hnd as [|?? Hx _]; subst. intros Hin. apply Hx.
    apply InA_alt in Hin as (y & Hxy & Hy). apply InA_alt. exists y.
    split; [done|]. apply list_elem_of_In. apply list_elem_of_In in Hy.
    by apply (subseteq_take n l).
  - apply IH. by inversion Hnd.
Qed.

Lemma NoDupA_Permutation {A} (eqA : relation A) `{!Equivalence eqA} (l1 l2 : list A) :
  l1 ≡ₚ l2 → NoDupA eqA l1 → NoDupA eqA l2.
Proof.
  intros Hp Hnd.
  exact (PermutationA_preserves_NoDupA _ (Permutation_PermutationA _ Hp) Hnd).
Qed.

(** Ascending with distinct keys is strictly ascending. *)
Lemma by_date_strict (rows : list (Z * Z)) :
  StronglySorted by_date rows → NoDup rows.*1 →
  StronglySorted (λ a b, a.1 < b.1) rows.
Proof.
  induction 1 as [|a rows Hs IH Hall]; intros Hnd; constructor.
  - apply IH. simpl in Hnd. by apply NoDup_cons in Hnd as [].
  - simpl in Hnd. apply NoDup_cons in Hnd as [Ha _].
    rewrite Forall_forall in Hall. apply Forall_forall. intros b Hb.
    specialize (Hall b Hb). unfold by_date in Hall.
    assert (a.1 ≠ b.1); [|lia].
    intros Heq. apply Ha. rewrite Heq. by apply list_elem_of_fmap_2.
Qed.

(** * Properties of the application *)

Section app_properties.
Context `{SqlServer} `{Werkzeug}.

(** ** The collation and the sort orders *)

#[local] Instance coll_eq_equivalence : Equivalence coll_eq.
Proof.
  split.
  - intros a. by destruct (total coll_le a a).
  - intros a b [??]. by split.
  - intros a b c [??] [??]. split; by transitivity b.
Qed.

#[local] Instance by_name_total : Total by_name.
Proof. intros a b. apply (total coll_le). Qed.

#[local] Instance by_name_trans : Transitive by_name.
Proof. intros a b c. apply (transitivity (R:=coll_le)). Qed.

#[local] Instance by_date_total : Total by_date.
Proof. intros a b. unfold by_date. lia. Qed.

#[local] Instance by_date_trans : Transitive by_date.
Proof. intros a b c. unfold by_date. lia. Qed.

#[local] Instance by_revenue_desc_total {K} : Total (@by_revenue_desc K).
Proof. intros a b. unfold by_revenue_desc. lia. Qed.

#[local] Instance by_revenue_desc_trans {K} : Transitive (@by_revenue_desc K).
Proof. intros a b c. unfold by_revenue_desc. lia. Qed.

(** ** Reading the form *)

Lemma form_getitem_Some (f : gmap string string) key v :
  f !! key = Some v → form_getitem f key = Ok v.
Proof. unfold form_getitem. by intros ->. Qed.

Lemma sql_bit_flag (b : bool) : sql_bit (if b then 1 else 0) = b.
Proof. by destruct b. Qed.

(** ** Authentication *)

Lemma select_user_by_email_insert d u e h r :
  select_user_by_email (insert_user d u e h r) e
  = select_user_by_email d e
    ++ [{| UserID := Users_identity d; Username := u; Email := e;
           PasswordHash := h; Role := r |}].
Proof.
  unfold select_user_by_email, insert_user. simpl.
  rewrite filter_app, filter_cons, filter_nil. simpl.
  rewrite decide_True; [done|reflexivity].
Qed.

Lemma register_post salt req w u e p :
  req_method req = POST →
  form req !! "username" = Some u →
  form req !! "email" = Some e →
  form req !! "password" = Some p →
  register salt req w
  = Ok (Redirect "login",
        flash "Registration successful! Please log in." "success"
          (set_db w (insert_user (db w) u e (generate_password_hash salt p) "Customer"))).
Proof.
  intros Hm Hu He Hp. unfold register. rewrite Hm.
  by rewrite (form_getitem_Some _ _ _ Hu), (form_getitem_Some _ _ _ He),
    (form_getitem_Some _ _ _ Hp).
Qed.

Lemma login_post req w e p :
  req_method req = POST →
  form req !! "email" = Some e →
  form req !! "password" = Some p →
  login req w
  = match fetchone (select_user_by_email (db w) e) with
    | Some row =>
        if check_password_hash (PasswordHash row) p
        then Ok (Redirect "index",
                 flash "Logged in successfully!" "success"
                   (login_user (User_of_row row) w))
        else Ok (Render login_html, flash "Invalid email or password" "danger" w)
    | None => Ok (Render login_html, flash "Invalid email or password" "danger" w)
    end.
Proof.
  intros Hm He Hp. unfold login. rewrite Hm.
  by rewrite (form_getitem_Some _ _ _ He), (form_getitem_Some _ _ _ Hp).
Qed.

(** C1 (as amended): when no user row has the email yet, registering and
    then logging in with the same email and password succeeds; the row
    register stored holds the salted hash of the password under the
    default role, login's check accepts that hash, and the session is
    bound to the id the new row received. *)
Theorem register_then_login salt reg_req login_req w u e p :
  req_method reg_req = POST →
  form reg_req !! "username" = Some u →
  form reg_req !! "email" = Some e →
  form reg_req !! "password" = Some p →
  req_method login_req = POST →
  form login_req !! "email" = Some e →
  form login_req !! "password" = Some p →
  select_user_by_email (db w) e = [] →
  let new := {| UserID := Users_identity (db w); Username := u; Email := e;
                PasswordHash := generate_password_hash salt p;
                Role := "Customer" |} in
  ∃ w1 w2,
    register salt reg_req w = Ok (Redirect "login", w1)
    ∧ Users (db w1) = Users (db w) ++ [new]
    ∧ check_password_hash (PasswordHash new) p = true
    ∧ login login_req w1 = Ok (Redirect "index", w2)
    ∧ session_user_id w2 = Some (str (UserID new)).
Proof.
  intros Hm Hu He Hp Hm' He' Hp' Hfresh new.
  eexists _, _. split; [by apply register_post|].
  split; [done|]. split; [apply check_generate|].
  rewrite (login_post _ _ e p) by done. simpl.
  rewrite select_user_by_email_insert, Hfresh. simpl.
  by rewrite check_generate.
Qed.

(** C2: a login attempt whose email matches no user row, or whose first
    matching row fails the hash check, re-renders the login form and
    flashes one and the same message; the session and the database are
    what they were. *)
Theorem login_rejected req w e p :
  req_method req = POST →
  form req !! "email" = Some e →
  form req !! "password" = Some p →
  select_user_by_email (db w) e = []
  ∨ (∃ row rows, select_user_by_email (db w) e = row :: rows
       ∧ check_password_hash (PasswordHash row) p = false) →
  ∃ w', login req w = Ok (Render login_html, w')
    ∧ flashes w' = flashes w ++ [("Invalid email or password", "danger")]
    ∧ session_user_id w' = session_user_id w
    ∧ db w' = db w.
Proof.
  intros Hm He Hp Hcase. rewrite (login_post _ _ e p) by done.
  destruct Hcase as [->|(row & rows & -> & Hcheck)]; simpl.
  - by eexists.
  - rewrite Hcheck. by eexists.
Qed.

(** ** The session loader *)

Lemma load_user_str d (uid : Z) :
  load_user d (str uid)
  = Ok (User_of_row <$> fetchone (filter (λ r, UserID r = uid) (Users d))).
Proof.
  unfold load_user, select_user_by_id. rewrite sql_int_str. simpl.
  by destruct (fetchone _).
Qed.

(** C9: given the id a session is bound to, the loader queries the Users
    table again.  When a row has that id it returns the user built from
    such a row and the protected view runs; when none has, it returns no
    user and the protected view is replaced by the redirect to the login
    page. *)
Theorem load_user_resolves (v : view) req w (uid : Z) :
  session_user_id w = Some (str uid) →
  ((∃ row, row ∈ Users (db w) ∧ UserID row = uid) →
     ∃ row, row ∈ Users (db w) ∧ UserID row = uid
       ∧ load_user (db w) (str uid) = Ok (Some (User_of_row row))
       ∧ login_required v req w = v req w)
  ∧ ((∀ row, row ∈ Users (db w) → UserID row ≠ uid) →
       load_user (db w) (str uid) = Ok None
       ∧ login_required v req w
         = Ok (Redirect "login",
               flash "Please log in to access this page." "message" w)).
Proof.
  intros Hs. unfold login_required, current_user. rewrite Hs, load_user_str.
  split.
  - intros (row & Hin & Hid).
    destruct (filter _ _) as [|row' rows] eqn:Hrows.
    + exfalso. by eapply (filter_nil_not_elem_of _ _ row).
    + assert (row' ∈ filter (λ r, UserID r = uid) (Users (db w))) as Hrow'
        by (rewrite Hrows; by left).
      apply list_elem_of_filter in Hrow' as [??]. by exists row'.
  - intros Hnone.
    destruct (filter _ _) as [|row' rows] eqn:Hrows; [done|].
    assert (row' ∈ filter (λ r, UserID r = uid) (Users (db w))) as Hrow'
      by (rewrite Hrows; by left).
    apply list_elem_of_filter in Hrow' as [??]. by destruct (Hnone row').
Qed.

(** ** The menu listing *)

(** The rows of the listing are the pairs of the join. *)
Lemma select_menu_elem d (r : MenuListRow) :
  r ∈ select_menu d
  ↔ ∃ m c, m ∈ MenuItems d ∧ c ∈ Categories d
      ∧ ItemCategoryID m = CategoryID c ∧ r = menu_list_row m c.
Proof.
  unfold select_menu. rewrite merge_sort_Permutation, list_elem_of_fmap. split.
  - intros ([m c] & -> & Hin). apply elem_of_join in Hin as (?&?&?).
    by exists m, c.
  - intros (m & c & Hm & Hc & Hon & ->). exists (m, c). split; [done|].
    by apply elem_of_join.
Qed.

Lemma select_menu_sorted d : StronglySorted by_name (select_menu d).
Proof. apply (StronglySorted_merge_sort by_name). Qed.

Lemma one_category d m :
  referential_integrity d → m ∈ MenuItems d →
  ∃ c, filter (in_category m) (Categories d) = [c].
Proof.
  intros [Hkey Hfk] Hm. apply (filter_key_unique CategoryID); [done|].
  by apply Hfk.
Qed.

(** C3: the listing never touches the database; its rows are exactly the
    menu items paired with the category rows of their category id, each
    showing the item's fields next to that category's name, sorted by item
    name in ascending collation order.  On a database whose menu items
    each reference their category, that is every menu item, once: [cats]
    lists the categories of the items, one per item, in table order. *)
Theorem menu_list_all_items req w :
  ∃ items,
    menu_list req w = Ok (Render (menu_list_html items), w)
    ∧ StronglySorted (λ a b, coll_le (row_Name a) (row_Name b)) items
    ∧ (∀ r, r ∈ items
         ↔ ∃ m c, m ∈ MenuItems (db w) ∧ c ∈ Categories (db w)
             ∧ ItemCategoryID m = CategoryID c ∧ r = menu_list_row m c)
    ∧ (referential_integrity (db w) →
       ∃ cats,
         Forall2 (λ m c, ItemCategoryID m = CategoryID c) (MenuItems (db w)) cats
         ∧ Forall (λ c, c ∈ Categories (db w)) cats
         ∧ items ≡ₚ zip_with menu_list_row (MenuItems (db w)) cats).
Proof.
  exists (select_menu (db w)). split; [done|].
  split; [apply select_menu_sorted|]. split; [apply select_menu_elem|].
  intros Hfk.
  destruct (join_functional in_category (MenuItems (db w)) (Categories (db w)))
    as (cats & Hon & Hin & Heq); [intros m Hm; by apply one_category|].
  exists cats. split_and!; try done.
  unfold select_menu. rewrite merge_sort_Permutation, Heq.
  clear. generalize (MenuItems (db w)). intros l. revert cats.
  induction l as [|m l IH]; intros [|c cats]; simpl; try done.
  by rewrite IH.
Qed.

(** ** Creating, editing and deleting menu items *)

Lemma check_category_accepts d c :
  (foreign_keys = true → has_category d c) → check_category d c = Ok ().
Proof.
  unfold check_category. destruct foreign_keys; simpl; [|done].
  intros Hc. rewrite bool_decide_eq_false_2; [done|]. intros Hn. by apply Hn, Hc.
Qed.

Lemma check_category_rejects d c :
  foreign_keys = true → ¬ has_category d c →
  check_category d c = Raise DatabaseError.
Proof.
  unfold check_category. intros -> Hn. simpl. by rewrite bool_decide_eq_true_2.
Qed.

Lemma has_category_elem d cat : cat ∈ Categories d → has_category d (CategoryID cat).
Proof. intros Hin. apply Exists_exists. by exists cat. Qed.

Lemma menu_create_post req w name category_id price c p :
  req_method req = POST →
  form req !! "name" = Some name →
  form req !! "category_id" = Some category_id →
  form req !! "price" = Some price →
  sql_int category_id = Some c →
  sql_decimal price = Some p →
  (foreign_keys = true → has_category (db w) c) →
  menu_create req w
  = Ok (Redirect "menu_list",
        flash "Menu item created successfully!" "success"
          (set_db w
             (set_MenuItems (db w)
                (MenuItems (db w)
                 ++ [{| MenuItemID := MenuItems_identity (db w); Name := name;
                        ItemCategoryID := c; Price := p;
                        Active := bool_decide (is_Some (form req !! "active")) |}])
                (MenuItems_identity (db w) + 1)))).
Proof.
  intros Hm Hn Hc Hp Hci Hpd Hfk. unfold menu_create, insert_menu_item. rewrite Hm.
  rewrite (form_getitem_Some _ _ _ Hn), (form_getitem_Some _ _ _ Hc),
    (form_getitem_Some _ _ _ Hp). simpl.
  rewrite Hci. simpl. rewrite Hpd. simpl.
  rewrite (check_category_accepts _ _ Hfk). simpl.
  by rewrite sql_bit_flag.
Qed.

Lemma menu_edit_post item_id req w name category_id price c p :
  req_method req = POST →
  form req !! "name" = Some name →
  form req !! "category_id" = Some category_id →
  form req !! "price" = Some price →
  sql_int category_id = Some c →
  sql_decimal price = Some p →
  (foreign_keys = true → has_category (db w) c) →
  menu_edit item_id req w
  = Ok (Redirect "menu_list",
        flash "Menu item updated successfully!" "success"
          (set_db w
             (set_MenuItems (db w)
                ((λ m, if decide (MenuItemID m = item_id)
                       then {| MenuItemID := MenuItemID m; Name := name;
                               ItemCategoryID := c; Price := p;
                               Active := truthy (form req !! "active") |}
                       else m) <$> MenuItems (db w))
                (MenuItems_identity (db w))))).
Proof.
  intros Hm Hn Hc Hp Hci Hpd Hfk. unfold menu_edit, update_menu_item. rewrite Hm.
  rewrite (form_getitem_Some _ _ _ Hn), (form_getitem_Some _ _ _ Hc),
    (form_getitem_Some _ _ _ Hp). simpl.
  rewrite Hci. simpl. rewrite Hpd. simpl.
  rewrite (check_category_accepts _ _ Hfk). case_bool_decide; simpl;
    by rewrite sql_bit_flag.
Qed.

(** C6: a create request whose form carries name, category id and price,
    and which the server accepts (where the schema declares the foreign
    key, the category id is one a category row has), appends one row to
    MenuItems: the name is the form's, category id and price are the
    form's strings converted to the columns' types, the active flag is
    set exactly when the form has an "active" field, and the id is the
    one the identity counter gives.  The listing that follows shows the
    new row next to the name of every category row with that id. *)
Theorem menu_create_inserts req w name category_id price c p :
  req_method req = POST →
  form req !! "name" = Some name →
  form req !! "category_id" = Some category_id →
  form req !! "price" = Some price →
  sql_int category_id = Some c →
  sql_decimal price = Some p →
  (foreign_keys = true → has_category (db w) c) →
  ∃ w' new,
    menu_create req w = Ok (Redirect "menu_list", w')
    ∧ MenuItems (db w') = MenuItems (db w) ++ [new]
    ∧ Name new = name ∧ ItemCategoryID new = c ∧ Price new = p
    ∧ (Active new = true ↔ is_Some (form req !! "active"))
    ∧ MenuItemID new = MenuItems_identity (db w)
    ∧ ∀ cat list_req,
        cat ∈ Categories (db w) → CategoryID cat = c →
        ∃ items,
          menu_list list_req w' = Ok (Render (menu_list_html items), w')
          ∧ {| row_MenuItemID := MenuItemID new; row_Name := name;
               row_CategoryName := CategoryName cat; row_Price := p;
               row_Active := Active new |} ∈ items.
Proof.
  intros Hm Hn Hc Hp Hci Hpd Hfk.
  eexists _, _. split; [by eapply menu_create_post|]. simpl.
  split_and!; try done.
  - apply bool_decide_eq_true.
  - intros cat list_req Hcat Hid. eexists. split; [done|].
    apply select_menu_elem.
    exists {| MenuItemID := MenuItems_identity (db w); Name := name;
              ItemCategoryID := c; Price := p;
              Active := bool_decide (is_Some (form req !! "active")) |}, cat.
    simpl. split_and!; [|done|by symmetry|done].
    apply elem_of_app. right. by left.
Qed.

(** C7: an edit request on POST that the server accepts (where the schema
    declares the foreign key, the submitted category id is one a category
    row has) replaces name, category id, price and active flag of every
    row with the given id by the submitted values (the active flag by the
    truth value of the submitted field, false when the field is missing,
    whatever the row held before), leaves every row with another id as it
    was and in its place, and leaves the categories alone.  When the item
    exists, the listing that follows shows the submitted values. *)
Theorem menu_edit_overwrites item_id req w name category_id price c p :
  req_method req = POST →
  form req !! "name" = Some name →
  form req !! "category_id" = Some category_id →
  form req !! "price" = Some price →
  sql_int category_id = Some c →
  sql_decimal price = Some p →
  (foreign_keys = true → has_category (db w) c) →
  let new := {| MenuItemID := item_id; Name := name; ItemCategoryID := c;
                Price := p; Active := truthy (form req !! "active") |} in
  ∃ w',
    menu_edit item_id req w = Ok (Redirect "menu_list", w')
    ∧ length (MenuItems (db w')) = length (MenuItems (db w))
    ∧ (∀ i m, MenuItems (db w) !! i = Some m → MenuItemID m = item_id →
         MenuItems (db w') !! i = Some new)
    ∧ (∀ i m, MenuItems (db w) !! i = Some m → MenuItemID m ≠ item_id →
         MenuItems (db w') !! i = Some m)
    ∧ Categories (db w') = Categories (db w)
    ∧ ∀ m cat list_req,
        m ∈ MenuItems (db w) → MenuItemID m = item_id →
        cat ∈ Categories (db w) → CategoryID cat = c →
        ∃ items,
          menu_list list_req w' = Ok (Render (menu_list_html items), w')
          ∧ menu_list_row new cat ∈ items.
Proof.
  intros Hm Hn Hc Hp Hci Hpd Hfk new.
  eexists. split; [by eapply menu_edit_post|]. simpl.
  split_and!.
  - by rewrite length_fmap.
  - intros i m Hi Hid. rewrite list_lookup_fmap, Hi. simpl.
    rewrite decide_True by done. by rewrite Hid.
  - intros i m Hi Hid. rewrite list_lookup_fmap, Hi. simpl.
    by rewrite decide_False.
  - done.
  - intros m cat list_req Hin Hid Hcat Hcid. eexists. split; [done|].
    apply select_menu_elem. exists new, cat. simpl.
    split_and!; [|done|by symmetry|done].
    apply list_elem_of_fmap. exists m. split; [|done].
    rewrite decide_True by done. by rewrite Hid.
Qed.

(** A form that lacks one of the three text fields changes nothing: the
    edit is never a partial patch. *)
Lemma menu_edit_missing_field item_id req w :
  req_method req = POST →
  form req !! "name" = None ∨ form req !! "category_id" = None
    ∨ form req !! "price" = None →
  ∃ key, menu_edit item_id req w = Raise (BadRequestKeyError key).
Proof.
  intros Hm Hnone. unfold menu_edit, form_getitem. rewrite Hm.
  destruct (form req !! "name"); simpl; [|by eexists].
  destruct (form req !! "category_id"); simpl; [|by eexists].
  destruct (form req !! "price"); simpl; [|by eexists].
  by destruct Hnone as [|[|]].
Qed.

Lemma delete_menu_item_absent d item_id :
  (∀ m, m ∈ MenuItems d → MenuItemID m ≠ item_id) →
  delete_menu_item d item_id = d.
Proof.
  intros Hno. unfold delete_menu_item, set_MenuItems.
  rewrite filter_all by done. by destruct d.
Qed.

(** C8: deleting always ends in the redirect to the listing with the
    "deleted" notice and never raises.  When no row has the id, the
    database is exactly what it was; when one row has it, that row is
    taken out and the rows before and after it stay, in order; the
    other tables are never touched. *)
Theorem menu_delete_by_id item_id req w :
  ∃ w',
    menu_delete item_id req w = Ok (Redirect "menu_list", w')
    ∧ flashes w' = flashes w ++ [("Menu item deleted.", "info")]
    ∧ ((∀ m, m ∈ MenuItems (db w) → MenuItemID m ≠ item_id) → db w' = db w)
    ∧ (∀ before m after,
         MenuItems (db w) = before ++ m :: after →
         MenuItemID m = item_id →
         (∀ m', m' ∈ before ++ after → MenuItemID m' ≠ item_id) →
         MenuItems (db w') = before ++ after)
    ∧ (∀ m, m ∈ MenuItems (db w') ↔ m ∈ MenuItems (db w) ∧ MenuItemID m ≠ item_id)
    ∧ Categories (db w') = Categories (db w)
    ∧ Users (db w') = Users (db w)
    ∧ Orders (db w') = Orders (db w)
    ∧ OrderDetails (db w') = OrderDetails (db w).
Proof.
  eexists. split; [done|]. simpl. split_and!; try done.
  - apply delete_menu_item_absent.
  - intros before m after Heq Hid Hothers. rewrite Heq.
    rewrite filter_app, filter_cons, decide_False by (by intros []).
    rewrite !filter_all; [done|..]; intros m' Hm'; apply Hothers, elem_of_app; auto.
  - intros m. rewrite list_elem_of_filter. tauto.
Qed.

(** C10: on the same accepted form, create sets the active flag exactly
    when the "active" field is present, edit exactly when the field is
    present with a non-empty value; a form whose "active" field is the
    empty string therefore creates an active item and edits an item into
    an inactive one. *)
Theorem active_field_create_vs_edit item_id req w name category_id price c p :
  req_method req = POST →
  form req !! "name" = Some name →
  form req !! "category_id" = Some category_id →
  form req !! "price" = Some price →
  sql_int category_id = Some c →
  sql_decimal price = Some p →
  (foreign_keys = true → has_category (db w) c) →
  ∃ w1 w2 created,
    menu_create req w = Ok (Redirect "menu_list", w1)
    ∧ MenuItems (db w1) = MenuItems (db w) ++ [created]
    ∧ (Active created = true ↔ is_Some (form req !! "active"))
    ∧ menu_edit item_id req w = Ok (Redirect "menu_list", w2)
    ∧ (∀ edited, edited ∈ MenuItems (db w2) → MenuItemID edited = item_id →
         Active edited = true
         ↔ ∃ value, form req !! "active" = Some value ∧ value ≠ "")
    ∧ (form req !! "active" = Some "" →
         Active created = true
         ∧ ∀ edited, edited ∈ MenuItems (db w2) → MenuItemID edited = item_id →
             Active edited = false).
Proof.
  intros Hm Hn Hc Hp Hci Hpd Hfk.
  eexists _, _, _. split; [by eapply menu_create_post|].
  split; [done|]. split; [apply bool_decide_eq_true|].
  split; [by eapply menu_edit_post|]. simpl.
  assert (∀ edited,
            edited ∈ (λ m, if decide (MenuItemID m = item_id)
              then {| MenuItemID := MenuItemID m; Name := name;
                      ItemCategoryID := c; Price := p;
                      Active := truthy (form req !! "active") |}
              else m) <$> MenuItems (db w) →
            MenuItemID edited = item_id →
            Active edited = truthy (form req !! "active")) as Hedit.
  { intros edited Hin Hid. apply list_elem_of_fmap in Hin as (m & -> & _).
    destruct (decide (MenuItemID m = item_id)); [done|]. by destruct n. }
  split.
  - intros edited Hin Hid. rewrite (Hedit _ Hin Hid).
    destruct (form req !! "active") as [[|a value]|]; simpl.
    + split; [done|]. by intros (? & [= <-] & ?).
    + split; [|done]. intros _. by eexists.
    + split; [done|]. by intros (? & [=] & ?).
  - intros Hactive. split; [apply bool_decide_eq_true; by eexists|].
    intros edited Hin Hid. rewrite (Hedit _ Hin Hid). by rewrite Hactive.
Qed.

(** ** Referential integrity is an invariant of a schema that declares it *)

Lemma check_category_Ok d c :
  foreign_keys = true → check_category d c = Ok () → has_category d c.
Proof.
  unfold check_category. intros ->. simpl. case_bool_decide as Hc; [done|].
  intros _. exact Hc.
Qed.

Lemma insert_menu_item_integrity d name category_id price active d' :
  foreign_keys = true → referential_integrity d →
  insert_menu_item d name category_id price active = Ok d' →
  referential_integrity d'.
Proof.
  intros Hfk [Hkey Hcat]. unfold insert_menu_item.
  destruct (sql_int category_id) as [c|]; simpl; [|done].
  destruct (sql_decimal price) as [p|]; simpl; [|done].
  destruct (check_category d c) as [[]|] eqn:Hc; simpl; [|done].
  intros [= <-]. split; [done|]. simpl. intros m Hm.
  apply elem_of_app in Hm as [Hm|Hm]; [by apply Hcat|].
  apply list_elem_of_singleton in Hm as ->. by apply check_category_Ok.
Qed.

Lemma update_menu_item_integrity d name category_id price active item_id d' :
  foreign_keys = true → referential_integrity d →
  update_menu_item d name category_id price active item_id = Ok d' →
  referential_integrity d'.
Proof.
  intros Hfk [Hkey Hcat]. unfold update_menu_item.
  destruct (sql_int category_id) as [c|]; simpl; [|done].
  destruct (sql_decimal price) as [p|]; simpl; [|done].
  case_bool_decide as Hitem.
  - destruct (check_category d c) as [[]|] eqn:Hc; simpl; [|done].
    intros [= <-]. split; [done|]. simpl. intros m Hm.
    apply list_elem_of_fmap in Hm as (m0 & -> & Hm0).
    case_decide; [by apply check_category_Ok|by apply Hcat].
  - simpl. intros [= <-]. split; [done|]. simpl. intros m Hm.
    apply list_elem_of_fmap in Hm as (m0 & -> & Hm0).
    case_decide as Hid; [|by apply Hcat].
    destruct Hitem. apply Exists_exists. by exists m0.
Qed.

Lemma delete_menu_item_integrity d item_id :
  referential_integrity d → referential_integrity (delete_menu_item d item_id).
Proof.
  intros [Hkey Hcat]. split; [done|]. simpl. intros m Hm.
  apply list_elem_of_filter in Hm as [_ Hm]. by apply Hcat.
Qed.

Lemma login_required_keeps_integrity (v : view) :
  keeps_integrity v → keeps_integrity (login_required v).
Proof.
  intros Hv req w resp w' Hi. unfold login_required.
  destruct (current_user w) as [[u|]|]; simpl; [by apply Hv| |done].
  by intros [= <- <-].
Qed.

Lemma menu_create_keeps_integrity :
  foreign_keys = true → keeps_integrity menu_create.
Proof.
  intros Hfk req w resp w' Hi. unfold menu_create.
  destruct (req_method req); [by intros [= <- <-]|].
  destruct (form_getitem _ "name") as [name|]; simpl; [|done].
  destruct (form_getitem _ "category_id") as [category_id|]; simpl; [|done].
  destruct (form_getitem _ "price") as [price|]; simpl; [|done].
  destruct (insert_menu_item _ _ _ _ _) as [d'|] eqn:Hins; simpl; [|done].
  intros [= <- <-]. by eapply insert_menu_item_integrity.
Qed.

Lemma menu_edit_keeps_integrity item_id :
  foreign_keys = true → keeps_integrity (menu_edit item_id).
Proof.
  intros Hfk req w resp w' Hi. unfold menu_edit.
  destruct (req_method req); [by intros [= <- <-]|].
  destruct (form_getitem _ "name") as [name|]; simpl; [|done].
  destruct (form_getitem _ "category_id") as [category_id|]; simpl; [|done].
  destruct (form_getitem _ "price") as [price|]; simpl; [|done].
  destruct (update_menu_item _ _ _ _ _ _) as [d'|] eqn:Hupd; simpl; [|done].
  intros [= <- <-]. by eapply update_menu_item_integrity.
Qed.

Lemma register_keeps_integrity salt : keeps_integrity (register salt).
Proof.
  intros req w resp w' Hi. unfold register.
  destruct (req_method req); [by intros [= <- <-]|].
  destruct (form_getitem _ "username"); simpl; [|done].
  destruct (form_getitem _ "email"); simpl; [|done].
  destruct (form_getitem _ "password"); simpl; [|done].
  by intros [= <- <-].
Qed.

Lemma login_keeps_integrity : keeps_integrity login.
Proof.
  intros req w resp w' Hi. unfold login.
  destruct (req_method req); [by intros [= <- <-]|].
  destruct (form_getitem _ "email"); simpl; [|done].
  destruct (form_getitem _ "password"); simpl; [|done].
  destruct (fetchone _) as [row|]; [|by intros [= <- <-]].
  destruct (check_password_hash _ _); by intros [= <- <-].
Qed.

(** On a server that enforces the foreign key, no request to any route
    can leave a menu item without its category. *)
Theorem app_keeps_integrity r req w :
  foreign_keys = true →
  referential_integrity (db w) →
  referential_integrity (db (app r req w).2).
Proof.
  intros Hfk Hi. unfold app.
  destruct (dispatch r req w) as [[resp w']|[]] eqn:Hd; [|done..].
  simpl. revert Hd. destruct r; simpl.
  - apply login_required_keeps_integrity; [|done]. by intros ???? ? [= <- <-].
  - by apply register_keeps_integrity.
  - by apply login_keeps_integrity.
  - apply login_required_keeps_integrity; [|done]. by intros ???? ? [= <- <-].
  - apply login_required_keeps_integrity; [|done]. by intros ???? ? [= <- <-].
  - apply login_required_keeps_integrity; [|done].
    by apply menu_create_keeps_integrity.
  - apply login_required_keeps_integrity; [|done]. by intros ???? ? [= <- <-].
  - apply login_required_keeps_integrity; [|done].
    by apply menu_edit_keeps_integrity.
  - apply login_required_keeps_integrity; [|done].
    intros ???? ? [= <- <-]. by apply delete_menu_item_integrity.
Qed.

(** ** Analytics *)

Lemma order_dates_keys d : (order_dates d).*1 = order_days d.
Proof. unfold order_dates, order_days. by rewrite <- list_fmap_compose. Qed.

Lemma select_daily_revenue_elem d day total :
  (day, total) ∈ select_daily_revenue d
  ↔ day ∈ order_days d ∧ total = day_revenue d day.
Proof.
  unfold select_daily_revenue. rewrite merge_sort_Permutation.
  rewrite <- order_dates_keys. unfold day_revenue.
  rewrite <- (sum_where_fmap (=) (λ o, dt_day (OrderTime o)) TotalAmount).
  fold (order_dates d). split.
  - intros Hin. split; [|by apply (group_sum_sum (=))].
    apply (group_sum_keys_elem (=)).
    apply list_elem_of_fmap. by exists (day, total).
  - intros [Hday ->]. apply InA_eq_elem_of, (group_sum_complete (=)) in Hday.
    apply InA_eq_elem_of, list_elem_of_fmap in Hday as ([day' s] & Hd & Hin).
    simpl in Hd. subst day'. by rewrite <- (group_sum_sum (=) day s).
Qed.

Lemma select_daily_revenue_NoDup d : NoDup (select_daily_revenue d).*1.
Proof.
  unfold select_daily_revenue. rewrite merge_sort_Permutation.
  apply NoDupA_eq_NoDup, (group_sum_NoDupA (=)).
Qed.

Lemma select_daily_revenue_length d :
  length (select_daily_revenue d) = size (list_to_set (order_days d) : gset Z).
Proof.
  rewrite <- (length_fmap fst).
  rewrite <- (size_list_to_set (C:=gset Z)) by apply select_daily_revenue_NoDup.
  f_equal. apply set_eq. intros day. rewrite !elem_of_list_to_set.
  rewrite list_elem_of_fmap. split.
  - intros ([day' total] & -> & Hin). by apply select_daily_revenue_elem in Hin as [].
  - intros Hday. exists (day, day_revenue d day). split; [done|].
    by apply select_daily_revenue_elem.
Qed.

(** C5: the daily-revenue rows hold one row per calendar date on which
    an order was placed, with the sum of the total amounts of that
    date's orders, in strictly ascending date order; the chart receives
    the dates and the revenues of these rows as two sequences of one
    length, the number of distinct order dates. *)
Theorem analytics_daily_revenue req w :
  ∃ revenue_rows dates revenues item_names item_revenues,
    analytics req w
    = Ok (Render (analytics_html dates revenues item_names item_revenues), w)
    ∧ dates = (λ r, str_date r.1) <$> revenue_rows
    ∧ revenues = (λ r, float r.2) <$> revenue_rows
    ∧ (∀ day total,
         (day, total) ∈ revenue_rows
         ↔ day ∈ order_days (db w) ∧ total = day_revenue (db w) day)
    ∧ StronglySorted (λ a b, a.1 < b.1) revenue_rows
    ∧ length dates = length revenues
    ∧ length dates = size (list_to_set (order_days (db w)) : gset Z).
Proof.
  exists (select_daily_revenue (db w)). eexists _, _, _, _.
  split; [reflexivity|]. split_and!; try done.
  - apply select_daily_revenue_elem.
  - apply by_date_strict; [|apply select_daily_revenue_NoDup].
    apply (StronglySorted_merge_sort by_date).
  - by rewrite !length_fmap.
  - rewrite length_fmap. apply select_daily_revenue_length.
Qed.

Lemma item_revenue_sum_where d name :
  sum_where coll_eq name (detail_lines d) = item_revenue d name.
Proof.
  unfold detail_lines, item_revenue.
  apply (sum_where_fmap coll_eq (λ p, Name p.2) (λ p, Quantity p.1 * UnitPrice p.1)).
Qed.

Lemma detail_lines_keys d name :
  name ∈ (detail_lines d).*1
  ↔ ∃ od mi, od ∈ OrderDetails d ∧ mi ∈ MenuItems d
      ∧ DetailMenuItemID od = MenuItemID mi ∧ Name mi = name.
Proof.
  unfold detail_lines. rewrite <- list_fmap_compose, list_elem_of_fmap. split.
  - intros ([od mi] & -> & Hin). apply elem_of_join in Hin as (?&?&?).
    by exists od, mi.
  - intros (od & mi & Hod & Hmi & Hon & <-). exists (od, mi). split; [done|].
    by apply elem_of_join.
Qed.

Lemma top_items_sorted d :
  StronglySorted by_revenue_desc
    (merge_sort by_revenue_desc (group_sum coll_eq (detail_lines d))).
Proof. apply (StronglySorted_merge_sort by_revenue_desc). Qed.

Lemma select_top_items_elem d name total :
  (name, total) ∈ select_top_items d →
  (name, total) ∈ group_sum coll_eq (detail_lines d).
Proof.
  unfold select_top_items. intros Hin. apply subseteq_take in Hin.
  by rewrite merge_sort_Permutation in Hin.
Qed.

(** C4: the top-items rows are at most five; each holds an item name and
    the sum of quantity times unit price over the order details joined
    to a menu item of that name, no name twice; the revenues never
    increase along the rows, nor do the floats handed to the chart; and
    a sold item name that is left out earns no more than any row that
    was kept. *)
Theorem analytics_top_items req w :
  ∃ top_rows dates revenues item_names item_revenues,
    analytics req w
    = Ok (Render (analytics_html dates revenues item_names item_revenues), w)
    ∧ item_names = (λ r, r.1) <$> top_rows
    ∧ item_revenues = (λ r, float r.2) <$> top_rows
    ∧ (length top_rows ≤ 5)%nat
    ∧ StronglySorted (λ a b, b.2 ≤ a.2) top_rows
    ∧ StronglySorted (λ x y, float_le y x) item_revenues
    ∧ (∀ name total,
         (name, total) ∈ top_rows →
         total = item_revenue (db w) name
         ∧ ∃ od mi, od ∈ OrderDetails (db w) ∧ mi ∈ MenuItems (db w)
             ∧ DetailMenuItemID od = MenuItemID mi ∧ Name mi = name)
    ∧ NoDupA coll_eq top_rows.*1
    ∧ (∀ od mi,
         od ∈ OrderDetails (db w) → mi ∈ MenuItems (db w) →
         DetailMenuItemID od = MenuItemID mi →
         InA coll_eq (Name mi) top_rows.*1
         ∨ (length top_rows = 5%nat
            ∧ ∀ r, r ∈ top_rows → item_revenue (db w) (Name mi) ≤ r.2)).
Proof.
  exists (select_top_items (db w)). eexists _, _, _, _.
  split; [reflexivity|]. split; [done|]. split; [done|].
  pose proof (top_items_sorted (db w)) as Hsorted.
  split_and!.
  - unfold select_top_items. rewrite length_take. lia.
  - by apply StronglySorted_take.
  - apply (StronglySorted_fmap _ by_revenue_desc).
    + intros a b. apply float_mono.
    + by apply StronglySorted_take.
  - intros name total Hin. apply select_top_items_elem in Hin. split.
    + rewrite <- item_revenue_sum_where. by apply (group_sum_sum coll_eq).
    + apply detail_lines_keys, (group_sum_keys_elem coll_eq).
      apply list_elem_of_fmap. by exists (name, total).
  - unfold select_top_items. rewrite fmap_take.
    apply NoDupA_take; [apply _|].
    eapply NoDupA_Permutation; [apply _| |apply (group_sum_NoDupA coll_eq)].
    symmetry. apply fmap_Permutation, merge_sort_Permutation.
  - intros od mi Hod Hmi Hon.
    assert (InA coll_eq (Name mi) (group_sum coll_eq (detail_lines (db w))).*1)
      as Hgroup.
    { apply (group_sum_complete coll_eq), InA_alt. exists (Name mi).
      split; [reflexivity|]. apply list_elem_of_In, detail_lines_keys.
      by exists od, mi. }
    apply InA_alt in Hgroup as (k & Hk & Hin).
    apply list_elem_of_In, list_elem_of_fmap in Hin as ([k' s] & Hk' & Hin).
    simpl in Hk'. subst k'.
    pose proof (group_sum_sum coll_eq _ _ _ Hin) as Hs.
    rewrite (item_revenue_sum_where (db w) k) in Hs.
    rewrite <- (merge_sort_Permutation by_revenue_desc) in Hin.
    rewrite <- (take_drop 5) in Hin. apply elem_of_app in Hin as [Hin|Hin].
    + left. apply InA_alt. exists k. split; [done|].
      apply list_elem_of_In, list_elem_of_fmap. by exists (k, s).
    + right. split.
      * unfold select_top_items. apply length_take_le.
        destruct (decide (5 ≤ length (merge_sort by_revenue_desc
          (group_sum coll_eq (detail_lines (db w))))))%nat as [|Hshort]; [done|].
        rewrite drop_ge in Hin by lia. by apply elem_of_nil in Hin.
      * intros r Hr.
        pose proof (StronglySorted_take_drop _ 5 _ _ _ Hsorted Hr Hin) as Hle.
        unfold by_revenue_desc in Hle. simpl in Hle. rewrite Hs in Hle.
        unfold item_revenue in *.
        rewrite <- !(sum_where_fmap coll_eq (λ p, Name p.2)
                      (λ p, Quantity p.1 * UnitPrice p.1)) in *.
        by rewrite (sum_where_proper coll_eq (Name mi) k).
Qed.

End app_properties.

(** ** Two registrations under one email *)

(** C1 (as stated) fails: register does not look for the email, so a
    second registration under an email that is already taken stores a
    second row; login then fetches the first row with that email.  With
    the same password on both, login succeeds, but the session is bound
    to the older user's id and not to the id of the user just registered.
    This holds on every platform. *)
Lemma register_twice_login_older :
  ∃ (first second attempt : request),
    ∀ (py : Python) (sq : SqlServer) (wz : Werkzeug) (salt1 salt2 : string),
    ∃ w1 w2 w3 older newer,
      register salt1 first (visitor empty_database) = Ok (Redirect "login", w1)
      ∧ register salt2 second w1 = Ok (Redirect "login", w2)
      ∧ Users (db w2) = [older; newer]
      ∧ Username newer = "ada.l"
      ∧ login attempt w2 = Ok (Redirect "index", w3)
      ∧ session_user_id w3 = Some (str (UserID older))
      ∧ session_user_id w3 ≠ Some (str (UserID newer)).
Proof.
  exists (post [("username", "ada"); ("email", "ada@example.com");
                ("password", "s3cret")]),
    (post [("username", "ada.l"); ("email", "ada@example.com");
           ("password", "s3cret")]),
    (post [("email", "ada@example.com"); ("password", "s3cret")]).
  intros py sq wz salt1 salt2. eexists _, _, _, _, _.
  split; [by apply (register_post _ _ _ "ada" "ada@example.com" "s3cret")|].
  split; [by apply (register_post _ _ _ "ada.l" "ada@example.com" "s3cret")|].
  split; [reflexivity|]. split; [reflexivity|].
  rewrite (login_post _ _ "ada@example.com" "s3cret") by done.
  simpl db. rewrite !select_user_by_email_insert. simpl.
  rewrite check_generate. split; [reflexivity|]. split; [reflexivity|].
  simpl. intros [= Heq]. apply (f_equal sql_int) in Heq.
  by rewrite !sql_int_str in Heq.
Qed.

(** * Further properties of the application *)

(** The row of a key value, in a table where the column is a key. *)
Lemma filter_key_elem {A} (key : A → Z) (x : A) (l : list A) :
  NoDup (key <$> l) → x ∈ l → filter (λ y, key y = key x) l = [x].
Proof.
  induction l as [|y l IH]; intros Hnd Hx; [by apply elem_of_nil in Hx|].
  rewrite fmap_cons in Hnd. apply NoDup_cons in Hnd as [Hy Hnd].
  apply elem_of_cons in Hx as [->|Hx].
  - rewrite filter_cons_True by done. f_equal.
    apply filter_none. intros z Hz Heq. apply Hy. rewrite <- Heq.
    by apply list_elem_of_fmap_2.
  - rewrite filter_cons_False, IH; [done..|].
    intros Heq. apply Hy. rewrite Heq. by apply list_elem_of_fmap_2.
Qed.

Lemma NoDup_snoc_fresh (l : list Z) (k : Z) :
  NoDup l → (∀ x, x ∈ l → x < k) → NoDup (l ++ [k]).
Proof.
  intros Hnd Hlt. apply NoDup_app. split_and!; [done| |apply NoDup_singleton].
  intros x Hx Hk. apply list_elem_of_singleton in Hk as ->.
  specialize (Hlt _ Hx). lia.
Qed.

Lemma NoDup_fmap_filter {A} (key : A → Z) (P : A → Prop) `{∀ x, Decision (P x)}
    (l : list A) :
  NoDup (key <$> l) → NoDup (key <$> filter P l).
Proof.
  induction l as [|x l IH]; [done|].
  rewrite fmap_cons, NoDup_cons. intros [Hx Hnd]. rewrite filter_cons.
  case_decide; [|by apply IH].
  rewrite fmap_cons. apply NoDup_cons. split; [|by apply IH].
  intros Hin. apply Hx. apply list_elem_of_fmap in Hin as (y & -> & Hy).
  apply list_elem_of_filter in Hy as [_ Hy]. by apply list_elem_of_fmap_2.
Qed.

Lemma Z_sum_Permutation (l1 l2 : list Z) :
  l1 ≡ₚ l2 → foldr Z.add 0 l1 = foldr Z.add 0 l2.
Proof. induction 1; simpl; lia. Qed.

(** Grouping moves values between rows and loses none. *)
Lemma add_to_group_total {K} (eqk : relation K) `{!RelDecision eqk}
    (k : K) (v : Z) (groups : list (K * Z)) :
  foldr Z.add 0 (add_to_group eqk k v groups).*2 = foldr Z.add 0 groups.*2 + v.
Proof.
  induction groups as [|[k0 s0] groups IH]; simpl in *; [lia|].
  case_decide; simpl; [lia|]. unfold fmap in IH. lia.
Qed.

Lemma group_sum_total {K} (eqk : relation K) `{!RelDecision eqk}
    (rows : list (K * Z)) :
  foldr Z.add 0 (group_sum eqk rows).*2 = foldr Z.add 0 rows.*2.
Proof.
  unfold group_sum.
  assert (∀ groups,
    foldr Z.add 0 (foldl (λ groups kv, add_to_group eqk kv.1 kv.2 groups)
                     groups rows).*2
    = foldr Z.add 0 groups.*2 + foldr Z.add 0 rows.*2) as Hgen.
  { induction rows as [|[k v] rows IH]; intros groups; [simpl; lia|].
    cbn [foldl]. rewrite IH, add_to_group_total, fmap_cons. simpl. lia. }
  rewrite Hgen. simpl. lia.
Qed.

(** A join in which every left row has at most one partner keeps the left
    rows in order and drops those without partner. *)
Lemma join_at_most_one {A B} (on : A → B → Prop) `{∀ a b, Decision (on a b)}
    (l : list A) (r : list B) :
  (∀ a, a ∈ l → filter (on a) r = [] ∨ ∃ b, filter (on a) r = [b]) →
  join on l r = omap (λ a, pair a <$> fetchone (filter (on a) r)) l.
Proof.
  induction l as [|a l IH]; intros Hone; [done|].
  unfold join in *. rewrite bind_cons, IH by (intros a' Ha'; apply Hone; by right).
  destruct (Hone a) as [Hnone|[b Hb]]; [by left|..]; simpl.
  - by rewrite Hnone.
  - by rewrite Hb.
Qed.

Lemma filter_key_at_most_one {A} (key : A → Z) (k : Z) (l : list A) :
  NoDup (key <$> l) →
  filter (λ y, k = key y) l = [] ∨ ∃ x, filter (λ y, k = key y) l = [x].
Proof.
  intros Hnd. destruct (decide (Exists (λ x, key x = k) l)) as [Hex|Hno].
  - right. by apply filter_key_unique.
  - left. apply filter_none. intros x Hx Hk. apply Hno, Exists_exists. by exists x.
Qed.

Section further_properties.
Context `{SqlServer} `{Werkzeug}.

(** ** Sessions *)


Lemma login_required_authenticated (v : view) req w :
  authenticated w → login_required v req w = v req w.
Proof. intros [u Hu]. unfold login_required. by rewrite Hu. Qed.



(** X2: a successful login and the session loader fit together.  When the
    first row with the email passes the hash check and user ids are a
    key, login binds the session to that row's id, the loader called with
    the session's value returns the user of that very row, and every
    protected view then runs as if it were not protected. *)
Theorem login_then_authorized req w e p row rows (v : view) next_req :
  req_method req = POST →
  form req !! "email" = Some e →
  form req !! "password" = Some p →
  select_user_by_email (db w) e = row :: rows →
  check_password_hash (PasswordHash row) p = true →
  NoDup (UserID <$> Users (db w)) →
  ∃ w',
    login req w = Ok (Redirect "index", w')
    ∧ db w' = db w
    ∧ session_user_id w' = Some (str (UserID row))
    ∧ current_user w' = Ok (Some (User_of_row row))
    ∧ login_required v next_req w' = v next_req w'.
Proof.
  intros Hm He Hp Hrow Hcheck Hkey.
  assert (row ∈ Users (db w)) as Hin.
  { assert (row ∈ select_user_by_email (db w) e) as Hsel
      by (rewrite Hrow; by left).
    by apply list_elem_of_filter in Hsel as [_ ?]. }
  assert (current_user
            (flash "Logged in successfully!" "success"
               (login_user (User_of_row row) w))
          = Ok (Some (User_of_row row))) as Hcur.
  { unfold current_user, load_user, select_user_by_id. simpl.
    rewrite sql_int_str. simpl.
    by rewrite (filter_key_elem UserID row (Users (db w)) Hkey Hin). }
  eexists. rewrite (login_post _ _ e p) by done. rewrite Hrow. simpl.
  rewrite Hcheck. split; [reflexivity|]. split_and!; try done.
  apply login_required_authenticated. by eexists.
Qed.

(** ** What a request can do to the database *)

Lemma login_required_cases (v : view) req w out :
  login_required v req w = Ok out →
  v req w = Ok out
  ∨ out = (Redirect "login", flash "Please log in to access this page." "message" w).
Proof.
  unfold login_required. destruct (current_user w) as [[u|]|]; simpl;
    [by left| |done].
  intros [= <-]. by right.
Qed.

(** A request commits at most one statement, and which one is fixed by
    its route. *)
Lemma dispatch_db_cases r req w resp w' :
  dispatch r req w = Ok (resp, w') →
  db w' = db w
  ∨ (req_method req = POST
     ∧ ∃ salt u e p, r = route_register salt
         ∧ db w' = insert_user (db w) u e (generate_password_hash salt p) "Customer")
  ∨ (req_method req = POST ∧ r = route_menu_create
     ∧ ∃ n c p a, insert_menu_item (db w) n c p a = Ok (db w'))
  ∨ (req_method req = POST
     ∧ ∃ item_id n c p a, r = route_menu_edit item_id
         ∧ update_menu_item (db w) n c p a item_id = Ok (db w'))
  ∨ (∃ item_id, r = route_menu_delete item_id
       ∧ db w' = delete_menu_item (db w) item_id).
Proof.
  destruct r; simpl; intros Hd;
    try (apply login_required_cases in Hd as [Hd|[= -> ->]]; [|by left]);
    cbv beta zeta delta [index logout menu_list analytics menu_delete] in Hd.
  - injection Hd as <- <-. by left.
  - unfold register in Hd. destruct (req_method req) eqn:Hm;
      [injection Hd as <- <-; by left|].
    destruct (form_getitem _ "username") as [u|]; simpl in Hd; [|done].
    destruct (form_getitem _ "email") as [e|]; simpl in Hd; [|done].
    destruct (form_getitem _ "password") as [p|]; simpl in Hd; [|done].
    injection Hd as <- <-. right. left. split; [done|]. by exists salt, u, e, p.
  - unfold login in Hd. destruct (req_method req);
      [injection Hd as <- <-; by left|].
    destruct (form_getitem _ "email") as [e|]; simpl in Hd; [|done].
    destruct (form_getitem _ "password") as [p|]; simpl in Hd; [|done].
    destruct (fetchone _) as [row|]; [|injection Hd as <- <-; by left].
    destruct (check_password_hash _ _); injection Hd as <- <-; by left.
  - injection Hd as <- <-. by left.
  - injection Hd as <- <-. by left.
  - unfold menu_create in Hd. destruct (req_method req) eqn:Hm;
      [injection Hd as <- <-; by left|].
    destruct (form_getitem _ "name") as [n|]; simpl in Hd; [|done].
    destruct (form_getitem _ "category_id") as [c|]; simpl in Hd; [|done].
    destruct (form_getitem _ "price") as [p|]; simpl in Hd; [|done].
    destruct (insert_menu_item _ _ _ _ _) as [d'|] eqn:Hins; simpl in Hd; [|done].
    injection Hd as <- <-. right. right. left. split; [done|]. split; [done|].
    by eexists _, _, _, _.
  - injection Hd as <- <-. by left.
  - unfold menu_edit in Hd. destruct (req_method req) eqn:Hm;
      [injection Hd as <- <-; by left|].
    destruct (form_getitem _ "name") as [n|]; simpl in Hd; [|done].
    destruct (form_getitem _ "category_id") as [c|]; simpl in Hd; [|done].
    destruct (form_getitem _ "price") as [p|]; simpl in Hd; [|done].
    destruct (update_menu_item _ _ _ _ _ _) as [d'|] eqn:Hupd; simpl in Hd; [|done].
    injection Hd as <- <-. right. right. right. left. split; [done|].
    by eexists _, _, _, _, _.
  - injection Hd as <- <-. do 4 right. by eexists.
Qed.

Lemma app_db_cases r req w :
  db (app r req w).2 = db w
  ∨ (req_method req = POST
     ∧ ∃ salt u e p, r = route_register salt
         ∧ db (app r req w).2
           = insert_user (db w) u e (generate_password_hash salt p) "Customer")
  ∨ (req_method req = POST ∧ r = route_menu_create
     ∧ ∃ n c p a, insert_menu_item (db w) n c p a = Ok (db (app r req w).2))
  ∨ (req_method req = POST
     ∧ ∃ item_id n c p a, r = route_menu_edit item_id
         ∧ update_menu_item (db w) n c p a item_id = Ok (db (app r req w).2))
  ∨ (∃ item_id, r = route_menu_delete item_id
       ∧ db (app r req w).2 = delete_menu_item (db w) item_id).
Proof.
  unfold app.
  destruct (dispatch r req w) as [[resp w']|[]] eqn:Hd; [|by left..].
  by apply dispatch_db_cases in Hd.
Qed.

Lemma insert_menu_item_Ok d n c p a d' :
  insert_menu_item d n c p a = Ok d' →
  ∃ row, MenuItemID row = MenuItems_identity d
    ∧ d' = set_MenuItems d (MenuItems d ++ [row]) (MenuItems_identity d + 1).
Proof.
  unfold insert_menu_item.
  destruct (sql_int c); simpl; [|done]. destruct (sql_decimal p); simpl; [|done].
  destruct (check_category d _) as [[]|]; simpl; [|done].
  intros [= <-]. eexists. split; [|reflexivity]. reflexivity.
Qed.

Lemma update_menu_item_Ok d n c p a item_id d' :
  update_menu_item d n c p a item_id = Ok d' →
  ∃ f : MenuItemRow → MenuItemRow,
    (∀ m, MenuItemID (f m) = MenuItemID m)
    ∧ d' = set_MenuItems d (f <$> MenuItems d) (MenuItems_identity d).
Proof.
  unfold update_menu_item.
  destruct (sql_int c); simpl; [|done]. destruct (sql_decimal p); simpl; [|done].
  destruct (if bool_decide _ then _ else _) as [[]|]; simpl; [|done].
  intros [= <-]. eexists. split; [|reflexivity].
  intros m. simpl. by case_decide.
Qed.


(** X4: no request ever writes Orders, OrderDetails or Categories; the
    daily revenue the dashboard shows is therefore the same before and
    after any request. *)
Theorem app_never_writes_orders r req w :
  Orders (db (app r req w).2) = Orders (db w)
  ∧ OrderDetails (db (app r req w).2) = OrderDetails (db w)
  ∧ Categories (db (app r req w).2) = Categories (db w)
  ∧ select_daily_revenue (db (app r req w).2) = select_daily_revenue (db w).
Proof.
  assert (Orders (db (app r req w).2) = Orders (db w)
          ∧ OrderDetails (db (app r req w).2) = OrderDetails (db w)
          ∧ Categories (db (app r req w).2) = Categories (db w)) as (Ho & Hod & Hc).
  { destruct (app_db_cases r req w)
      as [->|[(_ & ? & ? & ? & ? & _ & ->)|[(_ & _ & ? & ? & ? & ? & Hins)
          |[(_ & ? & ? & ? & ? & ? & _ & Hupd)|(? & _ & ->)]]]]; try done.
    - by apply insert_menu_item_Ok in Hins as (? & _ & ->).
    - by apply update_menu_item_Ok in Hupd as (? & _ & ->). }
  split_and!; try done.
  unfold select_daily_revenue, order_dates. by rewrite Ho.
Qed.

(** X5: user rows are only ever added, at the end and by register alone:
    the Users table before a request is a prefix of the table after it,
    and the two are equal unless the request is a POST to register. *)
Theorem app_users_only_grow r req w :
  Users (db w) `prefix_of` Users (db (app r req w).2)
  ∧ ((∀ salt, r ≠ route_register salt) ∨ req_method req = GET →
     Users (db (app r req w).2) = Users (db w)).
Proof.
  destruct (app_db_cases r req w)
    as [->|[(Hm & salt & ? & ? & ? & -> & ->)|[(_ & _ & ? & ? & ? & ? & Hins)
        |[(_ & ? & ? & ? & ? & ? & _ & Hupd)|(? & _ & ->)]]]]; try done.
  - split; [by eexists|]. intros [Hr|Hg]; [by destruct (Hr salt)|congruence].
  - by apply insert_menu_item_Ok in Hins as (? & _ & ->).
  - by apply update_menu_item_Ok in Hupd as (? & _ & ->).
Qed.

(** X6: the session is touched by login and logout only: on every other
    route the user id held by the session after the request is the one
    held before, also when the request fails. *)
Theorem session_changes_only_at_login_logout r req w :
  r ≠ route_login → r ≠ route_logout →
  session_user_id (app r req w).2 = session_user_id w.
Proof.
  intros Hlogin Hlogout. unfold app.
  destruct (dispatch r req w) as [[resp w']|[]] eqn:Hd; [|done..].
  simpl. revert Hd. destruct r; try done; simpl; intros Hd;
    try (apply login_required_cases in Hd as [Hd|[= -> ->]]; [|done]);
    cbv beta zeta delta [index menu_list analytics menu_delete] in Hd;
    try (by injection Hd as <- <-).
  - unfold register in Hd. destruct (req_method req);
      [by injection Hd as <- <-|].
    destruct (form_getitem _ "username"); simpl in Hd; [|done].
    destruct (form_getitem _ "email"); simpl in Hd; [|done].
    destruct (form_getitem _ "password"); simpl in Hd; [|done].
    by injection Hd as <- <-.
  - unfold menu_create in Hd. destruct (req_method req);
      [by injection Hd as <- <-|].
    destruct (form_getitem _ "name"); simpl in Hd; [|done].
    destruct (form_getitem _ "category_id"); simpl in Hd; [|done].
    destruct (form_getitem _ "price"); simpl in Hd; [|done].
    destruct (insert_menu_item _ _ _ _ _); simpl in Hd; [|done].
    by injection Hd as <- <-.
  - unfold menu_edit in Hd. destruct (req_method req);
      [by injection Hd as <- <-|].
    destruct (form_getitem _ "name"); simpl in Hd; [|done].
    destruct (form_getitem _ "category_id"); simpl in Hd; [|done].
    destruct (form_getitem _ "price"); simpl in Hd; [|done].
    destruct (update_menu_item _ _ _ _ _ _); simpl in Hd; [|done].
    by injection Hd as <- <-.
Qed.

(** ** Requests that fail *)

Lemma app_authenticated r req w :
  (protected r = true → authenticated w) →
  app r req w
  = match (match r with
           | route_index => index
           | route_register salt => register salt
           | route_login => login
           | route_logout => logout
           | route_menu => menu_list
           | route_menu_create => menu_create
           | route_analytics => analytics
           | route_menu_edit item_id => menu_edit item_id
           | route_menu_delete item_id => menu_delete item_id
           end) req w with
    | Ok out => out
    | Raise (BadRequestKeyError _) => (ErrorPage 400, w)
    | Raise DatabaseError => (ErrorPage 500, w)
    end.
Proof.
  intros Ha. unfold app.
  destruct r; simpl; try done;
    by rewrite login_required_authenticated by (by apply Ha).
Qed.

(** X7: a POST that lacks a field its view reads is answered with the 400
    page and changes nothing: no row is written, the session stays, no
    message is flashed.  (On a protected route the request must come
    from a logged-in user, or it is redirected before the form is read.) *)
Theorem missing_field_bad_request r req w key :
  req_method req = POST →
  key ∈ required_fields r →
  form req !! key = None →
  (protected r = true → authenticated w) →
  app r req w = (ErrorPage 400, w).
Proof.
  intros Hm Hkey Hnone Ha. rewrite app_authenticated by done.
  destruct r; simpl in Hkey; try (by apply elem_of_nil in Hkey);
    repeat (apply elem_of_cons in Hkey as [->|Hkey]);
    try (by apply elem_of_nil in Hkey);
    unfold register, login, menu_create, menu_edit, form_getitem;
    rewrite Hm, ?Hnone;
    repeat (match goal with
            | |- context [form req !! ?k] => destruct (form req !! k); simpl
            end);
    rewrite ?Hnone; try done.
Qed.

(** X8: a create or edit POST whose category id or price is text the
    server cannot convert is answered with the 500 page and changes
    nothing: the views pass the form's strings on unchecked and catch no
    database error. *)
Theorem malformed_number_server_error r req w name category_id price :
  r = route_menu_create ∨ (∃ item_id, r = route_menu_edit item_id) →
  req_method req = POST →
  form req !! "name" = Some name →
  form req !! "category_id" = Some category_id →
  form req !! "price" = Some price →
  sql_int category_id = None ∨ sql_decimal price = None →
  authenticated w →
  app r req w = (ErrorPage 500, w).
Proof.
  intros Hr Hm Hn Hc Hp Hbad Ha. rewrite app_authenticated by done.
  destruct Hr as [->|[item_id ->]];
    unfold menu_create, menu_edit, insert_menu_item, update_menu_item;
    rewrite Hm, (form_getitem_Some _ _ _ Hn), (form_getitem_Some _ _ _ Hc),
      (form_getitem_Some _ _ _ Hp); simpl;
    destruct Hbad as [Hbad|Hbad]; rewrite ?Hbad; simpl; try done;
    destruct (sql_int category_id); simpl; rewrite ?Hbad; done.
Qed.

(** ** Keys *)

Lemma insert_user_identity_keys d u e h r :
  identity_keys d → identity_keys (insert_user d u e h r).
Proof.
  intros (Hu & Hul & Hm & Hml). split_and!; simpl; try done.
  - rewrite fmap_app. apply NoDup_snoc_fresh; [done|].
    intros x Hx. apply list_elem_of_fmap in Hx as (row & -> & Hrow). by apply Hul.
  - intros row Hrow. apply elem_of_app in Hrow as [Hrow|Hrow].
    + specialize (Hul _ Hrow). lia.
    + apply list_elem_of_singleton in Hrow as ->. simpl. lia.
Qed.

Lemma insert_menu_item_identity_keys d n c p a d' :
  identity_keys d → insert_menu_item d n c p a = Ok d' → identity_keys d'.
Proof.
  intros (Hu & Hul & Hm & Hml) Hins.
  apply insert_menu_item_Ok in Hins as (new & Hid & ->).
  split_and!; simpl; try done.
  - rewrite fmap_app. simpl. rewrite Hid. apply NoDup_snoc_fresh; [done|].
    intros x Hx. apply list_elem_of_fmap in Hx as (row & -> & Hrow). by apply Hml.
  - intros row Hrow. apply elem_of_app in Hrow as [Hrow|Hrow].
    + specialize (Hml _ Hrow). lia.
    + apply list_elem_of_singleton in Hrow as ->. lia.
Qed.

Lemma update_menu_item_identity_keys d n c p a item_id d' :
  identity_keys d → update_menu_item d n c p a item_id = Ok d' → identity_keys d'.
Proof.
  intros (Hu & Hul & Hm & Hml) Hupd.
  apply update_menu_item_Ok in Hupd as (f & Hf & ->).
  split_and!; simpl; try done.
  - rewrite <- list_fmap_compose.
    by rewrite (list_fmap_ext (MenuItemID ∘ f) MenuItemID) by (intros; apply Hf).
  - intros row Hrow. apply list_elem_of_fmap in Hrow as (m & -> & Hm0).
    rewrite Hf. by apply Hml.
Qed.

Lemma delete_menu_item_identity_keys d item_id :
  identity_keys d → identity_keys (delete_menu_item d item_id).
Proof.
  intros (Hu & Hul & Hm & Hml). split_and!; simpl; try done.
  - by apply NoDup_fmap_filter.
  - intros row Hrow. apply list_elem_of_filter in Hrow as [_ Hrow]. by apply Hml.
Qed.

(** X9: the identity columns stay keys.  If user ids and menu item ids
    are pairwise distinct and below their identity counters before a
    request, they are so after it, on every route and for every form:
    register and create take the id from the counter and advance it,
    edit never changes an id, delete only removes rows. *)
Theorem app_keeps_identity_keys r req w :
  identity_keys (db w) → identity_keys (db (app r req w).2).
Proof.
  intros Hk.
  destruct (app_db_cases r req w)
    as [->|[(_ & ? & ? & ? & ? & _ & ->)|[(_ & _ & ? & ? & ? & ? & Hins)
        |[(_ & ? & ? & ? & ? & ? & _ & Hupd)|(? & _ & ->)]]]].
  - done.
  - by apply insert_user_identity_keys.
  - by eapply insert_menu_item_identity_keys.
  - by eapply update_menu_item_identity_keys.
  - by apply delete_menu_item_identity_keys.
Qed.

(** ** How the menu operations compose *)

(** X10: creating an item and then deleting the id it received restores
    the menu: the MenuItems table and the listing are what they were
    before the two requests; only the identity counter has moved on.
    (The counter must be fresh, as it is on a table whose ids came from
    it.) *)
Theorem create_then_delete req del_req w name category_id price c p :
  req_method req = POST →
  form req !! "name" = Some name →
  form req !! "category_id" = Some category_id →
  form req !! "price" = Some price →
  sql_int category_id = Some c →
  sql_decimal price = Some p →
  (foreign_keys = true → has_category (db w) c) →
  (∀ m, m ∈ MenuItems (db w) → MenuItemID m ≠ MenuItems_identity (db w)) →
  ∃ w1 w2,
    menu_create req w = Ok (Redirect "menu_list", w1)
    ∧ menu_delete (MenuItems_identity (db w)) del_req w1
      = Ok (Redirect "menu_list", w2)
    ∧ MenuItems (db w2) = MenuItems (db w)
    ∧ select_menu (db w2) = select_menu (db w)
    ∧ MenuItems_identity (db w2) = MenuItems_identity (db w) + 1.
Proof.
  intros Hm Hn Hc Hp Hci Hpd Hfk Hfresh.
  eexists _, _. split; [by eapply menu_create_post|].
  split; [reflexivity|]. simpl.
  assert (filter (λ m, MenuItemID m ≠ MenuItems_identity (db w))
            (MenuItems (db w)
             ++ [{| MenuItemID := MenuItems_identity (db w); Name := name;
                    ItemCategoryID := c; Price := p;
                    Active := bool_decide (is_Some (form req !! "active")) |}])
          = MenuItems (db w)) as Hback.
  { rewrite filter_app, filter_all by done.
    rewrite filter_cons_False by (simpl; by intros []).
    by rewrite filter_nil, app_nil_r. }
  split; [exact Hback|]. split; [|done].
  unfold select_menu. simpl. by rewrite Hback.
Qed.

(** X11: editing is idempotent.  Submitting the same accepted edit form
    for the same id a second time succeeds again and leaves the database
    exactly as the first submission left it. *)
Theorem menu_edit_idempotent item_id req w name category_id price c p :
  req_method req = POST →
  form req !! "name" = Some name →
  form req !! "category_id" = Some category_id →
  form req !! "price" = Some price →
  sql_int category_id = Some c →
  sql_decimal price = Some p →
  (foreign_keys = true → has_category (db w) c) →
  ∃ w1 w2,
    menu_edit item_id req w = Ok (Redirect "menu_list", w1)
    ∧ menu_edit item_id req w1 = Ok (Redirect "menu_list", w2)
    ∧ db w2 = db w1.
Proof.
  intros Hm Hn Hc Hp Hci Hpd Hfk.
  eexists _, _. split; [by eapply menu_edit_post|].
  split; [by eapply menu_edit_post|].
  simpl. unfold set_MenuItems. simpl. f_equal.
  rewrite <- list_fmap_compose. apply list_fmap_ext. intros i m _. simpl.
  destruct (decide (MenuItemID m = item_id)) as [Hid|Hid]; simpl.
  - by rewrite decide_True.
  - by rewrite decide_False.
Qed.

(** X12: deleting is idempotent and two deletions commute: deleting an
    id twice leaves the database as deleting it once, and deleting two
    ids leaves the same database in either order. *)
Theorem menu_delete_idempotent_commutes a b req1 req2 w :
  ∃ wa waa wab wb wba,
    menu_delete a req1 w = Ok (Redirect "menu_list", wa)
    ∧ menu_delete a req2 wa = Ok (Redirect "menu_list", waa)
    ∧ db waa = db wa
    ∧ menu_delete b req2 wa = Ok (Redirect "menu_list", wab)
    ∧ menu_delete b req1 w = Ok (Redirect "menu_list", wb)
    ∧ menu_delete a req2 wb = Ok (Redirect "menu_list", wba)
    ∧ db wab = db wba.
Proof.
  eexists _, _, _, _, _. do 2 (split; [reflexivity|]).
  split; [|do 3 (split; [reflexivity|])]; simpl;
    unfold delete_menu_item, set_MenuItems; simpl; f_equal;
    rewrite !list_filter_filter; apply list_filter_iff; intros m; tauto.
Qed.


(** X16: on GET, the edit view changes nothing and renders the form with
    all categories and, when menu item ids are a key, pre-filled with the
    very row that has the requested id. *)
Theorem menu_edit_form_prefilled req w m :
  req_method req = GET →
  m ∈ MenuItems (db w) →
  NoDup (MenuItemID <$> MenuItems (db w)) →
  menu_edit (MenuItemID m) req w
  = Ok (Render (menu_form_html (Categories (db w)) (Some m)), w).
Proof.
  intros Hm Hin Hkey. unfold menu_edit, select_menu_item, select_categories.
  rewrite Hm. by rewrite (filter_key_elem MenuItemID m _ Hkey Hin).
Qed.

(** X17: after a delete, the listing shows exactly the rows it showed
    before whose item id is not the deleted one: every row of the deleted
    item is gone, every other row is still listed, nothing new appears. *)
Theorem delete_then_list item_id req list_req w :
  ∃ w' before after,
    menu_list list_req w = Ok (Render (menu_list_html before), w)
    ∧ menu_delete item_id req w = Ok (Redirect "menu_list", w')
    ∧ menu_list list_req w' = Ok (Render (menu_list_html after), w')
    ∧ ∀ r, r ∈ after ↔ r ∈ before ∧ row_MenuItemID r ≠ item_id.
Proof.
  eexists _, _, _. do 3 (split; [reflexivity|]). simpl.
  intros r. rewrite !select_menu_elem. simpl. split.
  - intros (m & c & Hm & Hc & Hon & ->).
    apply list_elem_of_filter in Hm as [Hid Hm]. split; [|done].
    by exists m, c.
  - intros [(m & c & Hm & Hc & Hon & ->) Hid]. exists m, c.
    split_and!; try done. by apply list_elem_of_filter.
Qed.

(** X18: after an accepted create, the listing shows exactly the rows it
    showed before and the new item next to each category row of its
    category id: the insert disturbs no other row of the listing. *)
Theorem create_then_list req list_req w name category_id price c p :
  req_method req = POST →
  form req !! "name" = Some name →
  form req !! "category_id" = Some category_id →
  form req !! "price" = Some price →
  sql_int category_id = Some c →
  sql_decimal price = Some p →
  (foreign_keys = true → has_category (db w) c) →
  ∃ w' before after,
    menu_list list_req w = Ok (Render (menu_list_html before), w)
    ∧ menu_create req w = Ok (Redirect "menu_list", w')
    ∧ menu_list list_req w' = Ok (Render (menu_list_html after), w')
    ∧ ∀ r, r ∈ after
        ↔ r ∈ before
          ∨ ∃ cat, cat ∈ Categories (db w) ∧ CategoryID cat = c
              ∧ r = {| row_MenuItemID := MenuItems_identity (db w);
                       row_Name := name; row_CategoryName := CategoryName cat;
                       row_Price := p;
                       row_Active := bool_decide (is_Some (form req !! "active")) |}.
Proof.
  intros Hm Hn Hc Hp Hci Hpd Hfk.
  eexists _, _, _. split; [reflexivity|]. split; [by eapply menu_create_post|].
  split; [reflexivity|]. simpl.
  intros r. rewrite !select_menu_elem. simpl. split.
  - intros (m & cat & Hin & Hcat & Hon & ->).
    apply elem_of_app in Hin as [Hin|Hin]; [left; by exists m, cat|].
    apply list_elem_of_singleton in Hin as ->. right. exists cat.
    by split_and!.
  - intros [(m & cat & Hin & Hcat & Hon & ->)|(cat & Hcat & Hid & ->)].
    + exists m, cat. split_and!; try done. apply elem_of_app. by left.
    + eexists {| MenuItemID := MenuItems_identity (db w) |}, cat.
      split_and!; [apply elem_of_app; right; by left|done|by symmetry|done].
Qed.

(** ** What the dashboard and the listing show *)

(** X14: the daily revenues add up to the revenue of all orders: grouping
    by date loses no order and counts none twice. *)
Theorem daily_revenue_total (d : database) :
  foldr Z.add 0 (select_daily_revenue d).*2
  = foldr Z.add 0 (TotalAmount <$> Orders d).
Proof.
  unfold select_daily_revenue.
  rewrite (Z_sum_Permutation _ ((group_sum (=) (order_dates d)).*2))
    by apply fmap_Permutation, merge_sort_Permutation.
  rewrite group_sum_total. unfold order_dates.
  by rewrite <- list_fmap_compose.
Qed.

(** X15: when category ids are a key of Categories, the listing shows
    every menu item at most once, with the one category row of its
    category id, and leaves out exactly the items whose category id no
    category row has (the join is an inner join). *)
Theorem menu_list_drops_uncategorised (d : database) :
  NoDup (CategoryID <$> Categories d) →
  select_menu d
  ≡ₚ omap (λ m, menu_list_row m <$> category_of d m) (MenuItems d)
  ∧ (length (select_menu d) ≤ length (MenuItems d))%nat
  ∧ ∀ m, m ∈ MenuItems d →
      (category_of d m = None ↔ ¬ has_category d (ItemCategoryID m)).
Proof.
  intros Hkey.
  assert (select_menu d
          ≡ₚ omap (λ m, menu_list_row m <$> category_of d m) (MenuItems d))
    as Hperm.
  { unfold select_menu. rewrite merge_sort_Permutation.
    rewrite join_at_most_one
      by (intros m _; apply (filter_key_at_most_one CategoryID _ _ Hkey)).
    unfold category_of. induction (MenuItems d) as [|m l IH]; [done|].
    simpl. destruct (fetchone _); simpl; by rewrite IH. }
  split; [done|]. split.
  - rewrite Hperm. clear. induction (MenuItems d) as [|m l IH]; simpl; [done|].
    unfold omap in IH. destruct (_ <$> category_of d m); simpl; lia.
  - intros m _. unfold category_of, fetchone, has_category. split.
    + intros Hnone Hex. apply Exists_exists in Hex as (cat & Hin & Hid).
      apply head_None in Hnone.
      refine (filter_nil_not_elem_of (in_category m) _ cat Hnone _ Hin).
      by unfold in_category.
    + intros Hno. apply head_None, filter_none. intros cat Hin Hid.
      apply Hno, Exists_exists. by exists cat.
Qed.

End further_properties.

(** * A concrete platform

    One instance of the three interfaces, on which the views run: Python's
    decimal text of integers and ISO text of dates, with exact rationals
    standing for floats; a case-insensitive collation over the
    lexicographic order of the lower-cased strings; conversion of decimal
    text with up to two places; a schema that declares the foreign key;
    and a hasher that keeps the password as it is, the weakest one the
    interface allows. *)

Lemma parse_str_Z n : parse_Z (str_Z n) = Some n.
Proof.
  unfold parse_Z, str_Z. rewrite NilEmpty.isi. simpl. by rewrite DecimalZ.of_to.
Qed.

Lemma leb_trans (a b c : string) :
  String.leb a b = true → String.leb b c = true → String.leb a c = true.
Proof.
  unfold String.leb. revert b c.
  induction a as [|x a IH]; intros [|y b] [|z c]; simpl; try done.
  unfold Ascii.compare.
  destruct (N.compare_spec (N_of_ascii x) (N_of_ascii y)) as [Hxy|Hxy|Hxy],
    (N.compare_spec (N_of_ascii y) (N_of_ascii z)) as [Hyz|Hyz|Hyz],
    (N.compare_spec (N_of_ascii x) (N_of_ascii z)) as [Hxz|Hxz|Hxz];
    try done; try lia.
  apply IH.
Qed.

#[global] Instance cpython : Python := {|
  str := str_Z;
  str_date := isoformat;
  pyfloat := Q;
  float := λ n, Qmake n 100;
  float_le := Qle;
  float_mono := λ a b Hab, Z.mul_le_mono_nonneg_r a b 100 (Pos2Z.is_nonneg 100) Hab
|}.

#[global] Instance ci_le_dec : RelDecision ci_le.
Proof. intros a b. unfold ci_le. apply _. Defined.

#[global] Instance ci_le_total : Total ci_le.
Proof. intros a b. apply String.leb_total. Qed.

#[global] Instance ci_le_trans : Transitive ci_le.
Proof. intros a b c. apply leb_trans. Qed.

#[global] Instance sql_server : SqlServer := {|
  coll_le := ci_le;
  sql_int := parse_Z;
  sql_decimal := parse_decimal;
  sql_int_str := parse_str_Z;
  foreign_keys := true
|}.

#[global] Instance plaintext : Werkzeug := {|
  generate_password_hash := λ salt password, password;
  check_password_hash := String.eqb;
  check_generate := λ salt password, String.eqb_refl password
|}.

(** The views on the sample database. *)

Example bistro_menu :
  app route_menu get (signed_in 1 bistro)
  = (Render (menu_list_html
       [ {| row_MenuItemID := 3; row_Name := "Burger"; row_CategoryName := "Mains";
            row_Price := 999; row_Active := true |};
         {| row_MenuItemID := 2; row_Name := "espresso"; row_CategoryName := "Drinks";
            row_Price := 300; row_Active := true |};
         {| row_MenuItemID := 1; row_Name := "Pasta"; row_CategoryName := "Mains";
            row_Price := 1250; row_Active := true |} ]),
     signed_in 1 bistro).
Proof. reflexivity. Qed.

Example bistro_menu_visitor :
  app route_menu get (visitor bistro)
  = (Redirect "login",
     flash "Please log in to access this page." "message" (visitor bistro)).
Proof. reflexivity. Qed.

Example bistro_analytics :
  fst (app route_analytics get (signed_in 1 bistro))
  = Render (analytics_html
      ["2024-01-14"; "2024-01-15"] [Qmake 600 100; Qmake 2549 100]
      ["Pasta"; "Burger"; "espresso"] [Qmake 1250 100; Qmake 999 100; Qmake 900 100]).
Proof. reflexivity. Qed.

Example bistro_login_any_case :
  fst (app route_login (post [("email", "Ada@Example.com"); ("password", "s3cret")])
         (visitor bistro))
  = Redirect "index".
Proof. reflexivity. Qed.

Example bistro_create_malformed_price :
  app route_menu_create
    (post [("name", "Soup"); ("category_id", "1"); ("price", "cheap")])
    (signed_in 1 bistro)
  = (ErrorPage 500, signed_in 1 bistro).
Proof. reflexivity. Qed.

Example bistro_create_unknown_category :
  app route_menu_create
    (post [("name", "Soup"); ("category_id", "9"); ("price", "4.50")])
    (signed_in 1 bistro)
  = (ErrorPage 500, signed_in 1 bistro).
Proof. reflexivity. Qed.

Example bistro_create_missing_name :
  app route_menu_create (post [("category_id", "1"); ("price", "4.50")])
    (signed_in 1 bistro)
  = (ErrorPage 400, signed_in 1 bistro).
Proof. reflexivity. Qed.

(** The sample database keeps every menu item in an existing category. *)
Lemma bistro_integrity : referential_integrity bistro.
Proof.
  split; [by apply (bool_decide_unpack _)|].
  intros m Hm. simpl in Hm.
  repeat (apply elem_of_cons in Hm as [->|Hm]);
    [by apply (bool_decide_unpack _)..|].
  by apply elem_of_nil in Hm.
Qed.

(** ** The theorems at work on the sample database *)

(** [register_then_login] on the sample database: bob registers under a
    free email and logs in; the session holds the id the new row got. *)
Lemma register_then_login_witness :
  select_user_by_email bistro "bob@example.com" = []
  ∧ ∃ w1 w2,
      register "Zm9vYmFy"
        (post [("username", "bob"); ("email", "bob@example.com");
               ("password", "hunter2")])
        (visitor bistro)
      = Ok (Redirect "login", w1)
      ∧ (Username <$> last (Users (db w1))) = Some "bob"
      ∧ login (post [("email", "bob@example.com"); ("password", "hunter2")]) w1
        = Ok (Redirect "index", w2)
      ∧ session_user_id w2 = Some "2".
Proof.
  split; [reflexivity|].
  pose proof (register_then_login "Zm9vYmFy"
    (post [("username", "bob"); ("email", "bob@example.com"); ("password", "hunter2")])
    (post [("email", "bob@example.com"); ("password", "hunter2")])
    (visitor bistro) "bob" "bob@example.com" "hunter2"
    eq_refl eq_refl eq_refl eq_refl eq_refl eq_refl eq_refl eq_refl)
    as (w1 & w2 & Hreg & Husers & _ & Hlogin & Hsession).
  exists w1, w2. split; [exact Hreg|]. split; [by rewrite Husers|].
  split; [exact Hlogin|exact Hsession].
Defined.

(** [login_rejected] on the sample database, once for a wrong password and
    once for an unknown email: the same page and the same message. *)
Lemma login_rejected_witness :
  (∃ row rows,
      select_user_by_email bistro "ada@example.com" = row :: rows
      ∧ check_password_hash (PasswordHash row) "guess" = false)
  ∧ select_user_by_email bistro "nobody@example.com" = []
  ∧ ∃ w1 w2,
      login (post [("email", "ada@example.com"); ("password", "guess")])
        (visitor bistro) = Ok (Render login_html, w1)
      ∧ login (post [("email", "nobody@example.com"); ("password", "guess")])
          (visitor bistro) = Ok (Render login_html, w2)
      ∧ flashes w1 = [("Invalid email or password", "danger")]
      ∧ flashes w2 = [("Invalid email or password", "danger")]
      ∧ session_user_id w1 = None ∧ session_user_id w2 = None.
Proof.
  assert (∃ row rows,
      select_user_by_email bistro "ada@example.com" = row :: rows
      ∧ check_password_hash (PasswordHash row) "guess" = false) as Hwrong
    by (eexists _, _; split; reflexivity).
  assert (select_user_by_email bistro "nobody@example.com" = []) as Hnone
    by reflexivity.
  split; [exact Hwrong|]. split; [exact Hnone|].
  destruct (login_rejected
    (post [("email", "ada@example.com"); ("password", "guess")])
    (visitor bistro) "ada@example.com" "guess" eq_refl eq_refl eq_refl
    (or_intror Hwrong)) as (w1 & Hl1 & Hf1 & Hs1 & _).
  destruct (login_rejected
    (post [("email", "nobody@example.com"); ("password", "guess")])
    (visitor bistro) "nobody@example.com" "guess" eq_refl eq_refl eq_refl
    (or_introl Hnone)) as (w2 & Hl2 & Hf2 & Hs2 & _).
  by exists w1, w2.
Defined.

(** [menu_list_all_items] on the sample database, which satisfies
    referential integrity. *)
Lemma menu_list_all_items_witness :
  referential_integrity bistro
  ∧ ∃ items cats,
      menu_list get (visitor bistro)
      = Ok (Render (menu_list_html items), visitor bistro)
      ∧ StronglySorted (λ a b, coll_le (row_Name a) (row_Name b)) items
      ∧ Forall2 (λ m c, ItemCategoryID m = CategoryID c) (MenuItems bistro) cats
      ∧ items ≡ₚ zip_with menu_list_row (MenuItems bistro) cats.
Proof.
  split; [exact bistro_integrity|].
  destruct (menu_list_all_items get (visitor bistro))
    as (items & Hlist & Hsorted & _ & Hall).
  destruct (Hall bistro_integrity) as (cats & Hcats & _ & Hperm).
  by exists items, cats.
Defined.

(** [menu_create_inserts] on the sample database: a Burger at 9.99 in
    category 1 is listed next to the name of category 1. *)
Lemma menu_create_inserts_witness :
  ∃ w' items,
    menu_create
      (post [("name", "Burger"); ("category_id", "1"); ("price", "9.99");
             ("active", "on")])
      (visitor bistro)
    = Ok (Redirect "menu_list", w')
    ∧ length (MenuItems (db w')) = 4%nat
    ∧ menu_list get w' = Ok (Render (menu_list_html items), w')
    ∧ {| row_MenuItemID := 4; row_Name := "Burger"; row_CategoryName := "Mains";
         row_Price := 999; row_Active := true |} ∈ items.
Proof.
  edestruct (menu_create_inserts
    (post [("name", "Burger"); ("category_id", "1"); ("price", "9.99");
           ("active", "on")])
    (visitor bistro) "Burger" "1" "9.99" 1 999)
    as (w' & new & Hcreate & Hrows & _ & _ & _ & Hactive & Hid & Hlist);
    [reflexivity..|intros _; by left|].
  destruct (Hlist {| CategoryID := 1; CategoryName := "Mains" |} get)
    as (items & Hmenu & Hin); [by left|reflexivity|].
  exists w', items. split; [exact Hcreate|].
  split; [by rewrite Hrows, length_app|]. split; [exact Hmenu|].
  rewrite Hid in Hin. replace (Active new) with true in Hin; [exact Hin|].
  symmetry. apply Hactive. by eexists.
Defined.

(** [menu_edit_overwrites] on the sample database: the Burger's price goes
    from 9.99 to 10.99, the Pasta stays, the listing shows the new price. *)
Lemma menu_edit_overwrites_witness :
  ∃ w' items,
    menu_edit 3
      (post [("name", "Burger"); ("category_id", "1"); ("price", "10.99");
             ("active", "on")])
      (visitor bistro)
    = Ok (Redirect "menu_list", w')
    ∧ MenuItems (db w') !! 0%nat
      = Some {| MenuItemID := 1; Name := "Pasta"; ItemCategoryID := 1;
                Price := 1250; Active := true |}
    ∧ MenuItems (db w') !! 2%nat
      = Some {| MenuItemID := 3; Name := "Burger"; ItemCategoryID := 1;
                Price := 1099; Active := true |}
    ∧ menu_list get w' = Ok (Render (menu_list_html items), w')
    ∧ {| row_MenuItemID := 3; row_Name := "Burger"; row_CategoryName := "Mains";
         row_Price := 1099; row_Active := true |} ∈ items.
Proof.
  edestruct (menu_edit_overwrites 3
    (post [("name", "Burger"); ("category_id", "1"); ("price", "10.99");
           ("active", "on")])
    (visitor bistro) "Burger" "1" "10.99" 1 1099)
    as (w' & Hedit & _ & Hsame & Hother & _ & Hlist); [reflexivity..|intros _; by left|].
  destruct (Hlist {| MenuItemID := 3; Name := "Burger"; ItemCategoryID := 1;
                     Price := 999; Active := true |}
              {| CategoryID := 1; CategoryName := "Mains" |} get)
    as (items & Hmenu & Hin);
    [by do 2 right; left|reflexivity|by left|reflexivity|].
  exists w', items. split; [exact Hedit|].
  split; [by apply Hother|]. split; [by eapply Hsame|]. by split.
Defined.

(** [load_user_resolves] on the sample database: user 1 is loaded, user 7
    is gone and the protected listing redirects to the login page. *)
Lemma load_user_resolves_witness :
  (load_user bistro "1"
   = Ok (Some {| id := 1; username := "ada"; email := "ada@example.com";
                 role := "Customer" |})
   ∧ login_required menu_list get (signed_in 1 bistro)
     = menu_list get (signed_in 1 bistro))
  ∧ (load_user bistro "7" = Ok None
     ∧ login_required menu_list get (signed_in 7 bistro)
       = Ok (Redirect "login",
             flash "Please log in to access this page." "message"
               (signed_in 7 bistro))).
Proof.
  destruct (load_user_resolves menu_list get (signed_in 1 bistro) 1 eq_refl)
    as [Hyes _].
  destruct (load_user_resolves menu_list get (signed_in 7 bistro) 7 eq_refl)
    as [_ Hno].
  split.
  - destruct Hyes as (row & Hin & Hid & Hload & Hview).
    + eexists. split; [by left|reflexivity].
    + split; [reflexivity|exact Hview].
  - apply Hno. intros row Hin.
    apply list_elem_of_singleton in Hin as ->. discriminate.
Defined.

(** [active_field_create_vs_edit] for a form whose active field is the
    empty string: the created row is active, the edited row is not. *)
Lemma active_field_create_vs_edit_witness :
  ∃ w1 w2 created edited,
    menu_create
      (post [("name", "Soup"); ("category_id", "1"); ("price", "4.50");
             ("active", "")])
      (visitor bistro)
    = Ok (Redirect "menu_list", w1)
    ∧ last (MenuItems (db w1)) = Some created
    ∧ Active created = true
    ∧ menu_edit 3
        (post [("name", "Soup"); ("category_id", "1"); ("price", "4.50");
               ("active", "")])
        (visitor bistro)
      = Ok (Redirect "menu_list", w2)
    ∧ MenuItems (db w2) !! 2%nat = Some edited
    ∧ MenuItemID edited = 3
    ∧ Active edited = false.
Proof.
  edestruct (active_field_create_vs_edit 3
    (post [("name", "Soup"); ("category_id", "1"); ("price", "4.50");
           ("active", "")])
    (visitor bistro) "Soup" "1" "4.50" 1 450)
    as (w1 & w2 & created & Hcreate & Hrows & _ & Hedit & _ & Hempty);
    [reflexivity..|intros _; by left|].
  destruct Hempty as [Hon Hoff]; [reflexivity|].
  pose proof Hedit as Hw2. injection Hw2 as <-.
  eexists w1, _, created, _. split; [exact Hcreate|].
  split; [by rewrite Hrows, last_snoc|]. split; [exact Hon|].
  split; [exact Hedit|]. split; [reflexivity|]. split; [reflexivity|].
  apply Hoff; [|reflexivity]. by do 2 right; left.
Defined.

(** ** The further properties at work on the sample database *)

Lemma bistro_authenticated : authenticated (signed_in 1 bistro).
Proof. by eexists. Qed.

Lemma bistro_identity_keys : identity_keys bistro.
Proof.
  split_and!; try (by apply (bool_decide_unpack _)); intros row Hrow;
    simpl in Hrow; repeat (apply elem_of_cons in Hrow as [->|Hrow]);
    try (by apply elem_of_nil in Hrow); simpl; lia.
Qed.


(** [login_then_authorized]: ada logs in and the listing is served. *)
Lemma login_then_authorized_witness :
  ∃ w',
    login (post [("email", "ada@example.com"); ("password", "s3cret")])
      (visitor bistro) = Ok (Redirect "index", w')
    ∧ session_user_id w' = Some "1"
    ∧ login_required menu_list get w' = menu_list get w'.
Proof.
  edestruct (login_then_authorized
    (post [("email", "ada@example.com"); ("password", "s3cret")])
    (visitor bistro) "ada@example.com" "s3cret"
    {| UserID := 1; Username := "ada"; Email := "ada@example.com";
       PasswordHash := "s3cret"; Role := "Customer" |} [] menu_list get)
    as (w' & Hlogin & _ & Hs & _ & Hview);
    [reflexivity..|by apply (bool_decide_unpack _)|].
  exists w'. split; [exact Hlogin|]. split; [exact Hs|exact Hview].
Defined.


(** [session_changes_only_at_login_logout]: a create keeps the session. *)
Lemma session_changes_only_at_login_logout_witness :
  session_user_id
    (app route_menu_create
       (post [("name", "Soup"); ("category_id", "1"); ("price", "4.50")])
       (signed_in 1 bistro)).2
  = Some "1".
Proof.
  refine (session_changes_only_at_login_logout route_menu_create
            (post [("name", "Soup"); ("category_id", "1"); ("price", "4.50")])
            (signed_in 1 bistro) _ _); discriminate.
Defined.

(** [missing_field_bad_request]: a registration without password. *)
Lemma missing_field_bad_request_witness :
  app (route_register "Zm9v")
    (post [("username", "bob"); ("email", "bob@example.com")]) (visitor bistro)
  = (ErrorPage 400, visitor bistro).
Proof.
  apply (missing_field_bad_request (route_register "Zm9v")
           (post [("username", "bob"); ("email", "bob@example.com")])
           (visitor bistro) "password").
  - reflexivity.
  - do 2 right. left.
  - reflexivity.
  - discriminate.
Defined.

(** [malformed_number_server_error]: an edit with a price that is no
    number. *)
Lemma malformed_number_server_error_witness :
  app (route_menu_edit 3)
    (post [("name", "Burger"); ("category_id", "1"); ("price", "cheap")])
    (signed_in 1 bistro)
  = (ErrorPage 500, signed_in 1 bistro).
Proof.
  apply (malformed_number_server_error (route_menu_edit 3)
           (post [("name", "Burger"); ("category_id", "1"); ("price", "cheap")])
           (signed_in 1 bistro) "Burger" "1" "cheap").
  - right. by exists 3.
  - reflexivity.
  - reflexivity.
  - reflexivity.
  - reflexivity.
  - right. reflexivity.
  - exact bistro_authenticated.
Defined.

(** [app_keeps_identity_keys]: the sample database has its keys, and has
    them after a create. *)
Lemma app_keeps_identity_keys_witness :
  identity_keys bistro
  ∧ identity_keys
      (db (app route_menu_create
             (post [("name", "Soup"); ("category_id", "1"); ("price", "4.50")])
             (signed_in 1 bistro)).2).
Proof.
  split; [exact bistro_identity_keys|].
  exact (app_keeps_identity_keys route_menu_create
           (post [("name", "Soup"); ("category_id", "1"); ("price", "4.50")])
           (signed_in 1 bistro) bistro_identity_keys).
Defined.

(** [create_then_delete]: a Soup is created as item 4 and deleted again. *)
Lemma create_then_delete_witness :
  ∃ w1 w2,
    menu_create
      (post [("name", "Soup"); ("category_id", "1"); ("price", "4.50")])
      (visitor bistro) = Ok (Redirect "menu_list", w1)
    ∧ menu_delete 4 get w1 = Ok (Redirect "menu_list", w2)
    ∧ MenuItems (db w2) = MenuItems bistro
    ∧ MenuItems_identity (db w2) = 5.
Proof.
  edestruct (create_then_delete
    (post [("name", "Soup"); ("category_id", "1"); ("price", "4.50")]) get
    (visitor bistro) "Soup" "1" "4.50" 1 450)
    as (w1 & w2 & Hcreate & Hdelete & Hrows & _ & Hid);
    [reflexivity..|intros _; by left| |].
  - intros m Hm. simpl in Hm.
    repeat (apply elem_of_cons in Hm as [->|Hm]); try discriminate.
    by apply elem_of_nil in Hm.
  - by exists w1, w2.
Defined.

(** [menu_edit_idempotent]: the Burger's new price, submitted twice. *)
Lemma menu_edit_idempotent_witness :
  ∃ w1 w2,
    menu_edit 3
      (post [("name", "Burger"); ("category_id", "1"); ("price", "10.99")])
      (visitor bistro) = Ok (Redirect "menu_list", w1)
    ∧ menu_edit 3
        (post [("name", "Burger"); ("category_id", "1"); ("price", "10.99")])
        w1 = Ok (Redirect "menu_list", w2)
    ∧ db w2 = db w1.
Proof.
  edestruct (menu_edit_idempotent 3
    (post [("name", "Burger"); ("category_id", "1"); ("price", "10.99")])
    (visitor bistro) "Burger" "1" "10.99" 1 1099)
    as (w1 & w2 & H1st & H2nd & Hsame); [reflexivity..|intros _; by left|].
  by exists w1, w2.
Defined.


(** [menu_list_drops_uncategorised]: the Special, in category 9, is left out
    of the listing. *)
Lemma menu_list_drops_uncategorised_witness :
  NoDup (CategoryID <$> Categories bistro_with_orphan)
  ∧ length (MenuItems bistro_with_orphan) = 4%nat
  ∧ length (select_menu bistro_with_orphan) = 3%nat
  ∧ select_menu bistro_with_orphan
    ≡ₚ omap (λ m, menu_list_row m <$> category_of bistro_with_orphan m)
         (MenuItems bistro_with_orphan).
Proof.
  assert (NoDup (CategoryID <$> Categories bistro_with_orphan)) as Hkey
    by (by apply (bool_decide_unpack _)).
  split; [exact Hkey|]. split; [reflexivity|]. split; [reflexivity|].
  by destruct (menu_list_drops_uncategorised bistro_with_orphan Hkey).
Defined.

(** [menu_edit_form_prefilled]: the edit form of the Burger. *)
Lemma menu_edit_form_prefilled_witness :
  menu_edit 3 get (visitor bistro)
  = Ok (Render (menu_form_html (Categories bistro)
                  (Some {| MenuItemID := 3; Name := "Burger"; ItemCategoryID := 1;
                           Price := 999; Active := true |})),
        visitor bistro).
Proof.
  apply (menu_edit_form_prefilled get (visitor bistro)
           {| MenuItemID := 3; Name := "Burger"; ItemCategoryID := 1;
              Price := 999; Active := true |}).
  - reflexivity.
  - do 2 right. left.
  - by apply (bool_decide_unpack _).
Defined.

(** [create_then_list]: the listing after creating a Soup. *)
Lemma create_then_list_witness :
  ∃ w' before after,
    menu_list get (visitor bistro) = Ok (Render (menu_list_html before), visitor bistro)
    ∧ menu_create
        (post [("name", "Soup"); ("category_id", "1"); ("price", "4.50")])
        (visitor bistro) = Ok (Redirect "menu_list", w')
    ∧ menu_list get w' = Ok (Render (menu_list_html after), w')
    ∧ (∀ r, r ∈ before → r ∈ after)
    ∧ {| row_MenuItemID := 4; row_Name := "Soup"; row_CategoryName := "Mains";
         row_Price := 450; row_Active := false |} ∈ after.
Proof.
  edestruct (create_then_list
    (post [("name", "Soup"); ("category_id", "1"); ("price", "4.50")]) get
    (visitor bistro) "Soup" "1" "4.50" 1 450)
    as (w' & before & after & Hbefore & Hcreate & Hafter & Hrows);
    [reflexivity..|intros _; by left|].
  exists w', before, after. split_and!; try done.
  - intros r Hr. apply Hrows. by left.
  - apply Hrows. right. exists {| CategoryID := 1; CategoryName := "Mains" |}.
    split; [by left|]. by split.
Defined.
